(** * Edens-Group: the frontend scaffold and the embedding migration

    A shallow embedding of the three artefacts of the repository:
    - the schema migration (pgvector extension, [embedding] column,
      [idx_embedding_cosine] index), run against a model of the catalog;
    - the render entry point, which mounts [<App />] inside the identity
      provider's context;
    - the [App] component: its element tree, its counter state and the
      provider's [SignedIn] / [SignedOut] gates.

    Definitions come first; the properties follow in the second half. *)

From Stdlib Require Import ZArith NArith Lia Bool List.
From Stdlib Require Import Strings.String Strings.Ascii Numbers.DecimalString.
From Stdlib Require PrimFloat Uint63.
From stdpp Require Import base option list gmap strings.

(* ===================================================================== *)
(** ** Text utilities                                                     *)
(* ===================================================================== *)

Module Text.

Definition nl : string := String (ascii_of_nat 10) "".
Definition dq : string := String (ascii_of_nat 34) "".

(** [q s] is [s] between double quotes. *)
Definition q (s : string) : string := dq +:+ s +:+ dq.

Definition unlines (ls : list string) : string := String.concat nl ls.

(** Does [needle] occur somewhere in [hay]? *)
Fixpoint occurs (needle hay : string) : bool :=
  String.prefix needle hay ||
  match hay with
  | "" => false
  | String _ rest => occurs needle rest
  end.

(** A line without its [--] comment. *)
Fixpoint strip_comment (s : string) : string :=
  if String.prefix "--" s then ""
  else match s with
       | "" => ""
       | String a rest => String a (strip_comment rest)
       end.

Fixpoint split_on (sep : ascii) (s : string) : list string :=
  match s with
  | "" => [""]
  | String a rest =>
      if Ascii.eqb a sep then "" :: split_on sep rest
      else match split_on sep rest with
           | [] => [String a ""]
           | w :: ws => String a w :: ws
           end
  end.

Definition semicolon : ascii := ascii_of_nat 59.

(** The statements of a script, each as its list of words: comments are
    dropped, the text is cut at every [;], and pieces without a word are
    not statements. *)
Definition statements (ls : list string) : list (list string) :=
  List.filter (λ ws, negb (bool_decide (ws = [])))
    (map String.words (split_on semicolon (unlines (map strip_comment ls)))).

End Text.

(* ===================================================================== *)
(** ** The schema migration                                               *)
(* ===================================================================== *)

Module Sql.

(** *** Syntax: the statements the migration is written in *)

(** Index access methods and operator classes shipped by pgvector. *)
Inductive access_method := hnsw | ivfflat.
Inductive operator_class := vector_l2_ops | vector_ip_ops | vector_cosine_ops.
Inductive metric := L2 | InnerProduct | Cosine.

(** A column type: pgvector's [vector], with or without a dimension
    modifier, or a type of the server itself. *)
Inductive data_type :=
| Tvector (dim : option N)
| Tbuiltin (name : string).

Inductive stmt :=
| CreateExtension (if_not_exists : bool) (ext : string)
| AlterTableAddColumn (tbl : string) (if_not_exists : bool)
                      (col : string) (ty : data_type) (not_null : bool)
| CreateIndex (if_not_exists : bool) (idx tbl : string)
              (method : access_method) (col : string) (opclass : operator_class).

#[global] Instance access_method_eq_dec : EqDecision access_method.
Proof. solve_decision. Defined.
#[global] Instance operator_class_eq_dec : EqDecision operator_class.
Proof. solve_decision. Defined.
#[global] Instance data_type_eq_dec : EqDecision data_type.
Proof. solve_decision. Defined.
#[global] Instance stmt_eq_dec : EqDecision stmt.
Proof. solve_decision. Defined.

(** The migration, statement by statement.

<<
    CREATE EXTENSION IF NOT EXISTS vector;
    ALTER TABLE service_search_view
    ADD COLUMN IF NOT EXISTS embedding vector(1536);
    CREATE INDEX IF NOT EXISTS idx_embedding_cosine ON service_search_view
    USING hnsw (embedding vector_cosine_ops);
>> *)
Definition create_vector_extension : stmt :=
  CreateExtension true "vector".

Definition add_embedding_column : stmt :=
  AlterTableAddColumn "service_search_view" true
                      "embedding" (Tvector (Some 1536%N)) false.

Definition create_embedding_index : stmt :=
  CreateIndex true "idx_embedding_cosine" "service_search_view"
              hnsw "embedding" vector_cosine_ops.

Definition migration : list stmt :=
  [create_vector_extension; add_embedding_column; create_embedding_index].

(** *** Concrete syntax *)

Definition show_N (n : N) : string := NilEmpty.string_of_uint (N.to_uint n).

Definition show_method (m : access_method) : string :=
  match m with hnsw => "hnsw" | ivfflat => "ivfflat" end.

Definition show_opclass (oc : operator_class) : string :=
  match oc with
  | vector_l2_ops => "vector_l2_ops"
  | vector_ip_ops => "vector_ip_ops"
  | vector_cosine_ops => "vector_cosine_ops"
  end.

Definition show_type (ty : data_type) : string :=
  match ty with
  | Tvector None => "vector"
  | Tvector (Some d) => "vector(" +:+ show_N d +:+ ")"
  | Tbuiltin name => name
  end.

Definition show_guard (if_not_exists : bool) : string :=
  if if_not_exists then " IF NOT EXISTS" else "".

Definition show_stmt (s : stmt) : string :=
  match s with
  | CreateExtension ine e =>
      "CREATE EXTENSION" +:+ show_guard ine +:+ " " +:+ e
  | AlterTableAddColumn t ine c ty nn =>
      "ALTER TABLE " +:+ t +:+ " ADD COLUMN" +:+ show_guard ine +:+ " " +:+ c
      +:+ " " +:+ show_type ty +:+ (if nn then " NOT NULL" else "")
  | CreateIndex ine i t m c oc =>
      "CREATE INDEX" +:+ show_guard ine +:+ " " +:+ i +:+ " ON " +:+ t
      +:+ " USING " +:+ show_method m
      +:+ " (" +:+ c +:+ " " +:+ show_opclass oc +:+ ")"
  end.

Inductive stmt_kind := EnableExtension | AddColumn | AddIndex.

Definition kind_of (s : stmt) : stmt_kind :=
  match s with
  | CreateExtension _ _ => EnableExtension
  | AlterTableAddColumn _ _ _ _ _ => AddColumn
  | CreateIndex _ _ _ _ _ _ => AddIndex
  end.

(** *** The catalog *)

Inductive relkind := Table | View.

Record column := Column {
  col_name : string;
  col_type : data_type;
  col_not_null : bool
}.

Record relation := Relation {
  rel_kind : relkind;
  rel_columns : list column
}.

Record index := Index {
  idx_table : string;
  idx_method : access_method;
  idx_column : string;
  idx_opclass : operator_class
}.

(** [installable] are the extensions whose files are present on the
    server, [extensions] the ones created in this database.  Indexes and
    relations share one name space. *)
Record database := Database {
  installable : gset string;
  extensions : gset string;
  relations : gmap string relation;
  indexes : gmap string index
}.

#[global] Instance relkind_eq_dec : EqDecision relkind.
Proof. solve_decision. Defined.
#[global] Instance column_eq_dec : EqDecision column.
Proof. solve_decision. Defined.
#[global] Instance relation_eq_dec : EqDecision relation.
Proof. solve_decision. Defined.
#[global] Instance index_eq_dec : EqDecision index.
Proof. solve_decision. Defined.

Inductive sql_error :=
| extension_unavailable (ext : string)
| duplicate_object (name : string)
| undefined_table (tbl : string)
| wrong_object_type (tbl : string)
| duplicate_column (col : string)
| undefined_column (col : string)
| undefined_object (name : string)
| datatype_mismatch (col : string)
| duplicate_table (name : string)
| invalid_dimensions (col : string).

(** *** Semantics *)

Definition find_column (c : string) (r : relation) : option column :=
  List.find (fun k => bool_decide (col_name k = c)) (rel_columns r).

Definition metric_of (oc : operator_class) : metric :=
  match oc with
  | vector_l2_ops => L2
  | vector_ip_ops => InnerProduct
  | vector_cosine_ops => Cosine
  end.

(** The type [vector] exists once the extension does. *)
Definition type_defined (db : database) (ty : data_type) : bool :=
  match ty with
  | Tvector _ => bool_decide ("vector" ∈ extensions db)
  | Tbuiltin _ => true
  end.

(** So do the access methods [hnsw] and [ivfflat] and their operator
    classes. *)
Definition method_defined (db : database) (m : access_method) : bool :=
  bool_decide ("vector" ∈ extensions db).

(** The three operator classes are declared for type [vector]. *)
Definition opclass_accepts (oc : operator_class) (ty : data_type) : bool :=
  match ty with
  | Tvector _ => true
  | Tbuiltin _ => false
  end.

(** Largest number of dimensions an index of the method can hold. *)
Definition max_dimensions (m : access_method) : N := 2000%N.

(** Building the index needs a column with a dimension, within the
    method's limit. *)
Definition buildable (m : access_method) (ty : data_type) : bool :=
  match ty with
  | Tvector (Some d) => (1 <=? d)%N && (d <=? max_dimensions m)%N
  | _ => false
  end.

Definition name_taken (db : database) (n : string) : bool :=
  bool_decide (is_Some (relations db !! n)) || bool_decide (is_Some (indexes db !! n)).

Definition with_extension (e : string) (db : database) : database :=
  {| installable := installable db;
     extensions := {[ e ]} ∪ extensions db;
     relations := relations db;
     indexes := indexes db |}.

Definition with_relation (t : string) (r : relation) (db : database) : database :=
  {| installable := installable db;
     extensions := extensions db;
     relations := <[ t := r ]> (relations db);
     indexes := indexes db |}.

Definition with_index (i : string) (ix : index) (db : database) : database :=
  {| installable := installable db;
     extensions := extensions db;
     relations := relations db;
     indexes := <[ i := ix ]> (indexes db) |}.

Definition add_column (k : column) (r : relation) : relation :=
  {| rel_kind := rel_kind r; rel_columns := rel_columns r ++ [k] |}.

(** One statement: the new catalog, or the error the server raises.  A
    statement that fails changes nothing. *)
Definition exec_stmt (s : stmt) (db : database) : sql_error + database :=
  match s with
  | CreateExtension ine e =>
      if bool_decide (e ∈ extensions db) then
        if ine then inr db else inl (duplicate_object e)
      else if bool_decide (e ∈ installable db) then inr (with_extension e db)
      else inl (extension_unavailable e)
  | AlterTableAddColumn t ine c ty nn =>
      match relations db !! t with
      | None => inl (undefined_table t)
      | Some r =>
          match rel_kind r with
          | View => inl (wrong_object_type t)
          | Table =>
              match find_column c r with
              | Some _ => if ine then inr db else inl (duplicate_column c)
              | None =>
                  if type_defined db ty
                  then inr (with_relation t (add_column (Column c ty nn) r) db)
                  else inl (undefined_object (show_type ty))
              end
          end
      end
  | CreateIndex ine i t m c oc =>
      match relations db !! t with
      | None => inl (undefined_table t)
      | Some r =>
          match rel_kind r with
          | View => inl (wrong_object_type t)
          | Table =>
              if negb (method_defined db m) then inl (undefined_object (show_method m))
              else
                match find_column c r with
                | None => inl (undefined_column c)
                | Some k =>
                    if negb (opclass_accepts oc (col_type k))
                    then inl (datatype_mismatch c)
                    else if name_taken db i then
                      if ine then inr db else inl (duplicate_table i)
                    else if negb (buildable m (col_type k))
                    then inl (invalid_dimensions c)
                    else inr (with_index i (Index t m c oc) db)
                end
          end
      end
  end.

(** A script sent statement by statement, each committed on its own: it
    runs its statements in order and stops at the first error, and the
    catalog reached so far is kept. *)
Fixpoint exec_script (ss : list stmt) (db : database) : database * option sql_error :=
  match ss with
  | [] => (db, None)
  | s :: rest =>
      match exec_stmt s db with
      | inl e => (db, Some e)
      | inr db' => exec_script rest db'
      end
  end.

(** The same script sent as one transaction: an error undoes what the
    statements before it did, and the catalog is the one it started from.
    The file has no transaction control of its own, so which of the two
    it gets is up to whoever runs it. *)
Definition exec_transaction (ss : list stmt) (db : database) : database * option sql_error :=
  match exec_script ss db with
  | (db', None) => (db', None)
  | (_, Some e) => (db, Some e)
  end.

(** [n] executions of the script, one after the other, each on the
    catalog the previous one left; the outcome is that of the last. *)
Fixpoint exec_times (n : nat) (ss : list stmt) (db : database) : database * option sql_error :=
  match n with
  | O => (db, None)
  | S m => exec_script ss (fst (exec_times m ss db))
  end.

(** *** Column values *)

(** Does column [k] take the value [v]?  [None] is NULL; a vector is given
    by its components, whatever they are. *)
Definition admits {A : Type} (k : column) (v : option (list A)) : bool :=
  match v with
  | None => negb (col_not_null k)
  | Some xs =>
      match col_type k with
      | Tvector (Some d) => (N.of_nat (length xs) =? d)%N
      | Tvector None => (1 <=? N.of_nat (length xs))%N
      | Tbuiltin _ => false
      end
  end.

(** *** Guards and what a statement establishes *)

Definition guarded (s : stmt) : bool :=
  match s with
  | CreateExtension ine _ => ine
  | AlterTableAddColumn _ ine _ _ _ => ine
  | CreateIndex ine _ _ _ _ _ => ine
  end.

(** The part of the catalog a statement is there to bring about. *)
Definition established (db : database) (s : stmt) : Prop :=
  match s with
  | CreateExtension _ e => e ∈ extensions db
  | AlterTableAddColumn t _ c _ _ =>
      ∃ r k, relations db !! t = Some r ∧ rel_kind r = Table ∧
             find_column c r = Some k
  | CreateIndex _ i t m c oc =>
      ∃ r k, relations db !! t = Some r ∧ rel_kind r = Table ∧
             method_defined db m = true ∧ find_column c r = Some k ∧
             opclass_accepts oc (col_type k) = true ∧ name_taken db i = true
  end.

(** [db'] has everything [db] has: the statements only ever add. *)
Record extends (db db' : database) : Prop := {
  ext_installable : installable db' = installable db;
  ext_extensions : extensions db ⊆ extensions db';
  ext_relations : ∀ t r, relations db !! t = Some r →
      ∃ r', relations db' !! t = Some r' ∧ rel_kind r' = rel_kind r ∧
            ∀ c k, find_column c r = Some k → find_column c r' = Some k;
  ext_names : ∀ i, name_taken db i = true → name_taken db' i = true
}.

(** The statements a run got through are established in the catalog it
    left; the run stopped at the first statement that raises an error. *)
Inductive progress (db' : database) : list stmt → option sql_error → Prop :=
| progress_done : progress db' [] None
| progress_step s ss o :
    established db' s → progress db' ss o → progress db' (s :: ss) o
| progress_stop s ss e :
    exec_stmt s db' = inl e → progress db' (s :: ss) (Some e).

End Sql.

(* ===================================================================== *)
(** ** The source text                                                    *)
(* ===================================================================== *)

Module Source.
Import Text.

(** [frontend/src/App.jsx], line by line. *)
Definition App_jsx : list string :=
  [ "// frontend/src/App.jsx"
  ; "import { useState } from " +:+ q "react" +:+ ";"
  ; "import reactLogo from " +:+ q "./assets/react.svg" +:+ ";"
  ; "import viteLogo from " +:+ q "/vite.svg" +:+ ";"
  ; "import " +:+ q "./App.css" +:+ ";"
  ; ""
  ; "// Clerk prebuilt components"
  ; "import {"
  ; "  SignedIn,"
  ; "  SignedOut,"
  ; "  SignInButton,"
  ; "  SignUpButton,"
  ; "  UserButton,"
  ; "} from " +:+ q "@clerk/clerk-react" +:+ ";"
  ; ""
  ; "function App() {"
  ; "  const [count, setCount] = useState(0);"
  ; ""
  ; "  return ("
  ; "    <>"
  ; "      <header style={{ display: " +:+ q "flex" +:+ ", gap: " +:+ q "1rem" +:+ ", alignItems: " +:+ q "center" +:+ " }}>"
  ; "        <SignedOut>"
  ; "          <SignInButton mode=" +:+ q "modal" +:+ " />"
  ; "          <SignUpButton mode=" +:+ q "modal" +:+ " />"
  ; "        </SignedOut>"
  ; ""
  ; "        <SignedIn>"
  ; "          <UserButton />"
  ; "          <span style={{ marginLeft: " +:+ q "0.5rem" +:+ " }}>✅ Signed in</span>"
  ; "        </SignedIn>"
  ; "      </header>"
  ; ""
  ; "      <div>"
  ; "        <a href=" +:+ q "https://vite.dev" +:+ " target=" +:+ q "_blank" +:+ ">"
  ; "          <img src={viteLogo} className=" +:+ q "logo" +:+ " alt=" +:+ q "Vite logo" +:+ " />"
  ; "        </a>"
  ; "        <a href=" +:+ q "https://react.dev" +:+ " target=" +:+ q "_blank" +:+ ">"
  ; "          <img src={reactLogo} className=" +:+ q "logo react" +:+ " alt=" +:+ q "React logo" +:+ " />"
  ; "        </a>"
  ; "      </div>"
  ; ""
  ; "      <h1>Vite + React + Clerk</h1>"
  ; ""
  ; "      <div className=" +:+ q "card" +:+ ">"
  ; "        <button onClick={() => setCount((count) => count + 1)}>"
  ; "          count is {count}"
  ; "        </button>"
  ; "        <p>"
  ; "          Edit <code>src/App.jsx</code> and save to test HMR"
  ; "        </p>"
  ; "      </div>"
  ; ""
  ; "      <p className=" +:+ q "read-the-docs" +:+ ">"
  ; "        Click on the Vite and React logos to learn more"
  ; "      </p>"
  ; "    </>"
  ; "  );"
  ; "}"
  ; ""
  ; "export default App;"
  ].

(** The render entry point, line by line. *)
Definition main_jsx : list string :=
  [ "import { StrictMode } from " +:+ q "react" +:+ ";"
  ; "import { createRoot } from " +:+ q "react-dom/client" +:+ ";"
  ; "import " +:+ q "./index.css" +:+ ";"
  ; "import App from " +:+ q "./App.jsx" +:+ ";"
  ; "import { ClerkProvider } from " +:+ q "@clerk/clerk-react" +:+ ";"
  ; "import { CLERK_PUBLISHABLE_KEY } from " +:+ q "./config" +:+ ";"
  ; ""
  ; "// Ensure index.html has <div id=" +:+ q "root" +:+ "></div>"
  ; "createRoot(document.getElementById(" +:+ q "root" +:+ ")).render("
  ; "  <StrictMode>"
  ; "    <ClerkProvider publishableKey={CLERK_PUBLISHABLE_KEY} afterSignOutUrl=" +:+ q "/" +:+ ">"
  ; "      <App />"
  ; "    </ClerkProvider>"
  ; "  </StrictMode>"
  ; ");"
  ].

(** The migration, line by line. *)
Definition migration_sql : list string :=
  [ "-- Add pgvector extension"
  ; "CREATE EXTENSION IF NOT EXISTS vector;"
  ; ""
  ; "-- Add embedding column to existing table"
  ; "ALTER TABLE service_search_view "
  ; "ADD COLUMN IF NOT EXISTS embedding vector(1536);"
  ; ""
  ; "-- Create vector similarity index for fast searches"
  ; "CREATE INDEX IF NOT EXISTS idx_embedding_cosine ON service_search_view "
  ; "USING hnsw (embedding vector_cosine_ops);"
  ].

(** The files of the frontend. *)
Definition frontend : list (list string) := [App_jsx; main_jsx].

End Source.


(* ===================================================================== *)
(** ** Numbers of the host language                                       *)
(* ===================================================================== *)

Module Number.

(** A number is an IEEE-754 double.  The counter only ever holds
    integers, kept here as the integer the double stands for; a sum is
    the exact sum rounded to the nearest double, ties to even.  A double
    has 53 significant bits: an integer of more bits keeps its top 53. *)
Definition round_to_double (z : Z) : Z :=
  let a := Z.abs z in
  let e := (Z.log2 a - 52)%Z in
  if (e <=? 0)%Z then z
  else
    let quantum := (2 ^ e)%Z in
    let m := (a / quantum)%Z in
    let r := (a mod quantum)%Z in
    let half := (2 ^ (e - 1))%Z in
    let m' := if (r <? half)%Z then m
              else if (half <? r)%Z then (m + 1)%Z
              else if Z.even m then m else (m + 1)%Z in
    (Z.sgn z * (m' * quantum))%Z.

(** [x + y] *)
Definition add (x y : Z) : Z := round_to_double (x + y).

(** Integers up to [2^53] are all doubles; [2^53 + 1] is the first that
    is not. *)
Definition MAX_EXACT : Z := (2 ^ 53)%Z.

(** The double an integer of [0 .. 2^63 - 1] converts to, on the
    machine's own binary64 arithmetic. *)
Definition to_binary64 (z : Z) : PrimFloat.float :=
  PrimFloat.of_uint63 (Uint63.of_Z z).

(** What an integer-valued number prints as in text (below [10^21], where
    the exponent form starts). *)
Definition toString (z : Z) : string := NilZero.string_of_int (Z.to_int z).

End Number.

(* ===================================================================== *)
(** ** Element trees                                                      *)
(* ===================================================================== *)

Module Jsx.

(** The components the two files import and use in markup. *)
Inductive component :=
| StrictMode | ClerkProvider
| SignedIn | SignedOut | SignInButton | SignUpButton | UserButton
| AppElement.

Inductive tag :=
| Host (name : string)
| Comp (c : component).

#[global] Instance component_eq_dec : EqDecision component.
Proof. solve_decision. Defined.
#[global] Instance tag_eq_dec : EqDecision tag.
Proof. solve_decision. Defined.

(** A call of a state setter: with the next value, or with a function of
    the previous one. *)
Inductive set_state :=
| SetValue (v : Z)
| SetUpdater (f : Z → Z).

Inductive prop_value :=
| PString (s : string)
| PStyle (decls : list (string * string))
| PHandler (calls : list set_state).

#[local] Set Warnings "-register-all".
Inductive node :=
| Text (s : string)
| Num (z : Z)
| Fragment (children : list node)
| Element (t : tag) (props : list (string * prop_value)) (children : list node).

Definition props_of (n : node) : list (string * prop_value) :=
  match n with
  | Element _ ps _ => ps
  | _ => []
  end.

Definition children_of (n : node) : list node :=
  match n with
  | Fragment ch | Element _ _ ch => ch
  | _ => []
  end.

Definition tag_of (n : node) : option tag :=
  match n with
  | Element t _ _ => Some t
  | _ => None
  end.

Fixpoint find_prop (name : string) (ps : list (string * prop_value)) : option prop_value :=
  match ps with
  | [] => None
  | (k, v) :: rest => if bool_decide (k = name) then Some v else find_prop name rest
  end.

(** The first element with tag [t], in document order. *)
Fixpoint find_element (t : tag) (n : node) : option node :=
  let fix first (l : list node) : option node :=
    match l with
    | [] => None
    | x :: rest =>
        match find_element t x with
        | Some e => Some e
        | None => first rest
        end
    end in
  match n with
  | Text _ | Num _ => None
  | Fragment ch => first ch
  | Element t' _ ch => if bool_decide (t' = t) then Some n else first ch
  end.

(** Is there an element with tag [t] in the tree? *)
Definition mentions (t : tag) (n : node) : bool :=
  bool_decide (is_Some (find_element t n)).

(** The text a tree shows. *)
Fixpoint text_content (n : node) : string :=
  match n with
  | Text s => s
  | Num z => Number.toString z
  | Fragment ch | Element _ _ ch => String.concat "" (map text_content ch)
  end.

(** The state after the queued setter calls, applied in order. *)
Definition apply_set_state (c : set_state) (prev : Z) : Z :=
  match c with
  | SetValue v => v
  | SetUpdater f => f prev
  end.

Definition run_handler (calls : list set_state) (prev : Z) : Z :=
  fold_left (λ st c, apply_set_state c st) calls prev.

(** *** The identity provider's gates *)

(** [SignedIn] and [SignedOut] come from the identity provider: given the
    provider's signal, each decides what becomes of its children. *)
Class IdentityProvider (signal : Type) := {
  signed_in_children : signal → list node → list node;
  signed_out_children : signal → list node → list node
}.

(** The tree with the gates resolved under signal [s]. *)
Fixpoint resolve {signal : Type} `{IdentityProvider signal} (s : signal) (n : node) : list node :=
  match n with
  | Text _ | Num _ => [n]
  | Fragment ch => [Fragment (flat_map (resolve s) ch)]
  | Element (Comp SignedIn) _ ch => signed_in_children s (flat_map (resolve s) ch)
  | Element (Comp SignedOut) _ ch => signed_out_children s (flat_map (resolve s) ch)
  | Element t ps ch => [Element t ps (flat_map (resolve s) ch)]
  end.

(** Modelled from the spec: the gates themselves are the identity
    provider's code, which the repository imports and does not contain.
    The spec has a boolean-like signed-in signal and two mutually exclusive
    states: [SignedIn] keeps its children when the signal is on and renders
    nothing otherwise, [SignedOut] the other way round. *)
#[global] Instance boolean_provider : IdentityProvider bool := {|
  signed_in_children (s : bool) (ch : list node) := if s then ch else [];
  signed_out_children (s : bool) (ch : list node) := if s then [] else ch
|}.

End Jsx.

(* ===================================================================== *)
(** ** [App.jsx]                                                          *)
(* ===================================================================== *)

Module View.
Import Jsx.

(** The two image imports; the bundler decides what they stand for. *)
Record assets := Assets {
  reactLogo : string;
  viteLogo : string
}.

(** [useState(0)] *)
Definition initial_count : Z := 0.

(** [() => setCount((count) => count + 1)] *)
Definition increment : list set_state :=
  [SetUpdater (λ count, Number.add count 1)].

(** The children of [<SignedOut>] and of [<SignedIn>]. *)
Definition signed_out_view : list node :=
  [ Element (Comp SignInButton) [("mode", PString "modal")] [];
    Element (Comp SignUpButton) [("mode", PString "modal")] [] ].

Definition signed_in_view : list node :=
  [ Element (Comp UserButton) [] [];
    Element (Host "span") [("style", PStyle [("marginLeft", "0.5rem")])]
      [Text "✅ Signed in"] ].

Definition header : node :=
  Element (Host "header")
    [("style", PStyle [("display", "flex"); ("gap", "1rem"); ("alignItems", "center")])]
    [ Element (Comp SignedOut) [] signed_out_view;
      Element (Comp SignedIn) [] signed_in_view ].

Definition logos (a : assets) : node :=
  Element (Host "div") []
    [ Element (Host "a") [("href", PString "https://vite.dev"); ("target", PString "_blank")]
        [ Element (Host "img")
            [("src", PString (viteLogo a)); ("className", PString "logo");
             ("alt", PString "Vite logo")] [] ];
      Element (Host "a") [("href", PString "https://react.dev"); ("target", PString "_blank")]
        [ Element (Host "img")
            [("src", PString (reactLogo a)); ("className", PString "logo react");
             ("alt", PString "React logo")] [] ] ].

Definition heading : node :=
  Element (Host "h1") [] [Text "Vite + React + Clerk"].

Definition counter_button (count : Z) : node :=
  Element (Host "button") [("onClick", PHandler increment)]
    [Text "count is "; Num count].

Definition card (count : Z) : node :=
  Element (Host "div") [("className", PString "card")]
    [ counter_button count;
      Element (Host "p") []
        [ Text "Edit "; Element (Host "code") [] [Text "src/App.jsx"];
          Text " and save to test HMR" ] ].

Definition footer : node :=
  Element (Host "p") [("className", PString "read-the-docs")]
    [Text "Click on the Vite and React logos to learn more"].

(** What [App] returns when its state is [count]. *)
Definition App (a : assets) (count : Z) : node :=
  Fragment [header; logos a; heading; card count; footer].

Section Rendering.
Context {signal : Type} `{IdentityProvider signal}.
Variable a : assets.

(** What is on the page: [App]'s tree with the gates resolved. *)
Definition render (s : signal) (count : Z) : list node :=
  resolve s (App a count).

(** The page is one fragment; its first child is the header, the rest
    is everything outside the header. *)
Definition page_children (s : signal) (count : Z) : list node :=
  flat_map children_of (render s count).

Definition rendered_header (s : signal) (count : Z) : list node :=
  take 1 (page_children s count).

Definition outside_header (s : signal) (count : Z) : list node :=
  drop 1 (page_children s count).

(** The button the counter is shown on, and what it shows.  It is the
    one button [App] itself puts on the page; whatever the provider's
    components draw stays inside the header. *)
Definition rendered_button (s : signal) (count : Z) : option node :=
  find_element (Host "button") (Fragment (outside_header s count)).

Definition displayed (s : signal) (count : Z) : option string :=
  text_content <$> rendered_button s count.

(** Which of the two views are on the page. *)
Definition shows_signed_out (s : signal) (count : Z) : bool :=
  mentions (Comp SignInButton) (Fragment (render s count)) &&
  mentions (Comp SignUpButton) (Fragment (render s count)).

Definition shows_signed_in (s : signal) (count : Z) : bool :=
  mentions (Comp UserButton) (Fragment (render s count)).

(** *** The page over time *)

Record page := Page {
  count : Z;
  auth : signal
}.

Inductive event :=
| Activate               (* the counter button is clicked *)
| AuthChange (s : signal).   (* the provider's signal changes *)

(** A click runs the [onClick] handler of the button on the page. *)
Definition click (p : page) : Z :=
  match rendered_button (auth p) (count p) with
  | Some b =>
      match find_prop "onClick" (props_of b) with
      | Some (PHandler calls) => run_handler calls (count p)
      | _ => count p
      end
  | None => count p
  end.

Definition step (p : page) (e : event) : page :=
  match e with
  | Activate => {| count := click p; auth := auth p |}
  | AuthChange s => {| count := count p; auth := s |}
  end.

Definition mounted (s : signal) : page :=
  {| count := initial_count; auth := s |}.

Definition run (p : page) (es : list event) : page := fold_left step es p.

Definition is_activation (e : event) : bool :=
  match e with Activate => true | AuthChange _ => false end.

(** How many times the button was activated. *)
Definition activations (es : list event) : nat :=
  length (List.filter is_activation es).

(** What the button shows on page [p]. *)
Definition label (p : page) : option string := displayed (auth p) (count p).

End Rendering.

End View.

(* ===================================================================== *)
(** ** The render entry point                                             *)
(* ===================================================================== *)

Module Main.
Import Jsx.

Record mounting := Mounting {
  container_id : string;
  root_element : node
}.

(** [<ClerkProvider publishableKey={CLERK_PUBLISHABLE_KEY} afterSignOutUrl="/">] *)
Definition provider (CLERK_PUBLISHABLE_KEY : string) : node :=
  Element (Comp ClerkProvider)
    [ ("publishableKey", PString CLERK_PUBLISHABLE_KEY);
      ("afterSignOutUrl", PString "/") ]
    [ Element (Comp AppElement) [] [] ].

(** [createRoot(document.getElementById("root")).render(...)]; the key is
    imported from [./config]. *)
Definition main (CLERK_PUBLISHABLE_KEY : string) : mounting :=
  {| container_id := "root";
     root_element :=
       Element (Comp StrictMode) [] [provider CLERK_PUBLISHABLE_KEY] |}.

(** The provider element of the mounted tree and the names of the props
    it is configured with. *)
Definition mounted_provider (CLERK_PUBLISHABLE_KEY : string) : option node :=
  find_element (Comp ClerkProvider) (root_element (main CLERK_PUBLISHABLE_KEY)).

Definition configuration (CLERK_PUBLISHABLE_KEY : string) : list (string * prop_value) :=
  from_option props_of [] (mounted_provider CLERK_PUBLISHABLE_KEY).

End Main.

(* ===================================================================== *)
(** ** Sample inputs                                                      *)
(* ===================================================================== *)

Module Sample.
Import Sql View.

(** A table as the migration expects to find it. *)
Definition services : relation :=
  Relation Table [ Column "id" (Tbuiltin "integer") true;
                   Column "name" (Tbuiltin "text") false ].

(** A database of a server that ships pgvector, before the migration. *)
Definition catalog : database :=
  {| installable := {[ "vector" ]};
     extensions := ∅;
     relations := {[ "service_search_view" := services ]};
     indexes := ∅ |}.

Definition bundle : assets :=
  {| reactLogo := "/src/assets/react.svg"; viteLogo := "/vite.svg" |}.

Definition publishable_key : string := "pk_test_example".

End Sample.

(** Catalogs the migration can meet on other servers. *)
Module Cases.
Import Sql.


(** [service_search_view] is a view. *)
Definition as_view : database :=
  {| installable := {[ "vector" ]};
     extensions := ∅;
     relations := {[ "service_search_view" :=
                       Relation View [Column "id" (Tbuiltin "integer") true] ]};
     indexes := ∅ |}.

(** The server does not ship pgvector. *)
Definition no_pgvector : database :=
  {| installable := ∅;
     extensions := ∅;
     relations := {[ "service_search_view" := Sample.services ]};
     indexes := ∅ |}.

(** The table already has an [embedding] column, of another dimension. *)
Definition embedding_768 : column :=
  Column "embedding" (Tvector (Some 768%N)) false.

Definition with_768 : database :=
  {| installable := {[ "vector" ]};
     extensions := {[ "vector" ]};
     relations := {[ "service_search_view" :=
                       Relation Table [Column "id" (Tbuiltin "integer") true;
                                       embedding_768] ]};
     indexes := ∅ |}.

(** The table already has an [embedding] column that is no vector. *)
Definition embedding_text : column :=
  Column "embedding" (Tbuiltin "text") false.

Definition with_text : database :=
  {| installable := {[ "vector" ]};
     extensions := ∅;
     relations := {[ "service_search_view" :=
                       Relation Table [Column "id" (Tbuiltin "integer") true;
                                       embedding_text] ]};
     indexes := ∅ |}.

(** The index name is in use, by an index of another making. *)
Definition other_index : index :=
  Index "service_search_view" ivfflat "embedding" vector_l2_ops.

Definition with_index_name : database :=
  {| installable := {[ "vector" ]};
     extensions := {[ "vector" ]};
     relations := {[ "service_search_view" :=
                       Relation Table [Column "id" (Tbuiltin "integer") true;
                                       embedding_768] ]};
     indexes := {[ "idx_embedding_cosine" := other_index ]} |}.

End Cases.

(** The signal a run ends with. *)
Module Trace.
Import View.

Definition last_signal {signal : Type} (s : signal) (es : list (@event signal)) : signal :=
  fold_left (λ cur e, match e with
                      | Activate => cur
                      | AuthChange s' => s'
                      end) es s.

End Trace.

(* ===================================================================== *)
(** * Properties                                                          *)
(* ===================================================================== *)

(** ** The migration: what each statement does to the catalog *)

Section StatementFacts.
Import Sql.
Implicit Types (db : database) (r : relation) (k : column) (s : stmt).

Lemma find_column_add_eq c ty nn r :
  find_column c r = None →
  find_column c (add_column (Column c ty nn) r) = Some (Column c ty nn).
Proof.
  unfold find_column, add_column; simpl.
  induction (rel_columns r) as [|a l IH]; simpl.
  - rewrite bool_decide_eq_true_2; done.
  - destruct (bool_decide (col_name a = c)); [done | exact IH].
Qed.

Lemma find_column_add_keep c k0 r k :
  find_column c r = Some k → find_column c (add_column k0 r) = Some k.
Proof.
  unfold find_column, add_column; simpl.
  induction (rel_columns r) as [|a l IH]; simpl; [done|].
  destruct (bool_decide (col_name a = c)); [done | exact IH].
Qed.

Lemma name_taken_relation db i r :
  relations db !! i = Some r → name_taken db i = true.
Proof.
  intros Hr. unfold name_taken.
  rewrite bool_decide_eq_true_2; [done | by eexists].
Qed.

Lemma name_taken_index db i ix :
  indexes db !! i = Some ix → name_taken db i = true.
Proof.
  intros Hi. unfold name_taken.
  rewrite (bool_decide_eq_true_2 (is_Some (indexes db !! i)));
    [apply orb_true_r | by eexists].
Qed.

Lemma name_taken_inv db i :
  name_taken db i = true →
  is_Some (relations db !! i) ∨ is_Some (indexes db !! i).
Proof.
  unfold name_taken. intros Hn.
  apply orb_true_iff in Hn as [Hn|Hn]; apply bool_decide_eq_true_1 in Hn; auto.
Qed.

Lemma extends_refl db : extends db db.
Proof. split; eauto. Qed.

Lemma extends_trans db1 db2 db3 :
  extends db1 db2 → extends db2 db3 → extends db1 db3.
Proof.
  intros [A1 B1 C1 D1] [A2 B2 C2 D2]. split.
  - congruence.
  - etrans; eassumption.
  - intros t r Hr. destruct (C1 _ _ Hr) as (r' & Hr' & Hk' & Hc').
    destruct (C2 _ _ Hr') as (r'' & Hr'' & Hk'' & Hc'').
    exists r''. split; [done|]. split; [congruence|]. eauto.
  - eauto.
Qed.

(** A statement that succeeds only adds to the catalog. *)
Lemma exec_stmt_extends s db db' :
  exec_stmt s db = inr db' → extends db db'.
Proof.
  destruct s as [ine e | t ine c ty nn | ine i t m c oc]; simpl.
  - repeat case_bool_decide; destruct ine; intros [= <-];
      try apply extends_refl.
    all: split; simpl; eauto; apply union_subseteq_r.
  - destruct (relations db !! t) as [r|] eqn:Hr; [|done].
    destruct (rel_kind r) eqn:Hk; [|done].
    destruct (find_column c r) as [k|] eqn:Hc.
    + destruct ine; intros [= <-]. apply extends_refl.
    + destruct (type_defined db ty); [|done]. intros [= <-].
      split; simpl; [done|done| |].
      * intros t0 r0 H0. destruct (decide (t = t0)) as [->|Hne].
        -- rewrite lookup_insert_eq. eexists; split; [done|].
           assert (r0 = r) as -> by congruence.
           split; [done|]. intros. by apply find_column_add_keep.
        -- rewrite lookup_insert_ne by done. eauto.
      * intros i0 H0. apply name_taken_inv in H0 as [[r0 H0]|[ix H0]].
        -- destruct (decide (t = i0)) as [->|Hne].
           ++ eapply name_taken_relation; simpl. apply lookup_insert_eq.
           ++ eapply name_taken_relation; simpl. rewrite lookup_insert_ne; done.
        -- eapply name_taken_index; simpl; done.
  - destruct (relations db !! t) as [r|] eqn:Hr; [|done].
    destruct (rel_kind r) eqn:Hk; [|done].
    destruct (method_defined db m); [|done]. simpl.
    destruct (find_column c r) as [k|] eqn:Hc; [|done].
    destruct (opclass_accepts oc (col_type k)); [|done]. simpl.
    destruct (name_taken db i) eqn:Hn.
    + destruct ine; intros [= <-]. apply extends_refl.
    + destruct (buildable m (col_type k)); [|done]. simpl.
      intros [= <-]. split; simpl; eauto.
      intros i0 H0. apply name_taken_inv in H0 as [[r0 H0]|[ix H0]].
      * eapply name_taken_relation; simpl; done.
      * destruct (decide (i = i0)) as [->|Hne].
        -- eapply name_taken_index; simpl. apply lookup_insert_eq.
        -- eapply name_taken_index; simpl. rewrite lookup_insert_ne; done.
Qed.

(** What is established stays established in a larger catalog. *)
Lemma established_extends s db db' :
  established db s → extends db db' → established db' s.
Proof.
  intros He [A B C D].
  destruct s as [ine e | t ine c ty nn | ine i t m c oc]; simpl in *.
  - by apply B.
  - destruct He as (r & k & Hr & Hk & Hc).
    destruct (C _ _ Hr) as (r' & Hr' & Hk' & Hc').
    exists r', k. split; [done|]. split; [congruence|]. eauto.
  - destruct He as (r & k & Hr & Hk & Hm & Hc & Ho & Hn).
    destruct (C _ _ Hr) as (r' & Hr' & Hk' & Hc').
    exists r', k. split; [done|]. split; [congruence|].
    split. { unfold method_defined in *. apply bool_decide_eq_true_1 in Hm.
             apply bool_decide_eq_true_2. by apply B. }
    split; [eauto|]. split; [done|]. eauto.
Qed.

(** A guarded statement that succeeds establishes its object... *)
Lemma exec_stmt_establishes s db db' :
  guarded s = true → exec_stmt s db = inr db' → established db' s.
Proof.
  destruct s as [ine e | t ine c ty nn | ine i t m c oc]; simpl; intros ->.
  - repeat case_bool_decide; intros [= <-]; simpl; [done|].
    apply elem_of_union_l, elem_of_singleton. done.
  - destruct (relations db !! t) as [r|] eqn:Hr; [|done].
    destruct (rel_kind r) eqn:Hk; [|done].
    destruct (find_column c r) as [k|] eqn:Hc.
    + intros [= <-]. eauto 10.
    + destruct (type_defined db ty); [|done].
      intros [= <-]. simpl. rewrite lookup_insert_eq.
      do 2 eexists. split; [done|]. split; [done|]. by apply find_column_add_eq.
  - destruct (relations db !! t) as [r|] eqn:Hr; [|done].
    destruct (rel_kind r) eqn:Hk; [|done].
    destruct (method_defined db m) eqn:Hm; [|done]. simpl.
    destruct (find_column c r) as [k|] eqn:Hc; [|done].
    destruct (opclass_accepts oc (col_type k)) eqn:Ho; [|done]. simpl.
    destruct (name_taken db i) eqn:Hn.
    + intros [= <-]. eauto 15.
    + destruct (buildable m (col_type k)); [|done]. simpl.
      intros [= <-]. exists r, k. simpl. repeat split; try done.
      eapply name_taken_index; simpl. apply lookup_insert_eq.
Qed.

(** ... and one whose object is established does nothing, without error. *)
Lemma exec_stmt_established s db :
  guarded s = true → established db s → exec_stmt s db = inr db.
Proof.
  destruct s as [ine e | t ine c ty nn | ine i t m c oc]; simpl; intros ->.
  - intros He. rewrite bool_decide_eq_true_2; done.
  - intros (r & k & Hr & Hk & Hc). by rewrite Hr, Hk, Hc.
  - intros (r & k & Hr & Hk & Hm & Hc & Ho & Hn).
    by rewrite Hr, Hk, Hm, Hc, Ho, Hn.
Qed.

(** Without its guard a statement fails the second time. *)
Lemma unguarded_extension_fails_again e db db' :
  exec_stmt (CreateExtension false e) db = inr db' →
  exec_stmt (CreateExtension false e) db' = inl (duplicate_object e).
Proof.
  intros Hx. simpl in Hx.
  repeat case_bool_decide; try done. injection Hx as <-. simpl.
  rewrite bool_decide_eq_true_2; [done|].
  apply elem_of_union_l, elem_of_singleton. done.
Qed.

End StatementFacts.

(** ** The migration: running the script *)

Section ScriptFacts.
Import Sql.
Implicit Types (db : database) (r : relation) (k : column) (s : stmt).

Lemma exec_script_cons_inv s ss db db' :
  exec_script (s :: ss) db = (db', None) →
  ∃ db1, exec_stmt s db = inr db1 ∧ exec_script ss db1 = (db', None).
Proof. simpl. destruct (exec_stmt s db) as [e|db1]; [done | eauto]. Qed.

Lemma exec_script_cons_ok s ss db db1 :
  exec_stmt s db = inr db1 → exec_script (s :: ss) db = exec_script ss db1.
Proof. intros E. simpl. by rewrite E. Qed.

Lemma exec_script_nil_inv db db' o :
  exec_script [] db = (db', o) → db' = db ∧ o = None.
Proof. by intros [= <- <-]. Qed.

Lemma exec_script_extends ss db :
  extends db (fst (exec_script ss db)).
Proof.
  revert db. induction ss as [|s ss IH]; intros db; simpl.
  - apply extends_refl.
  - destruct (exec_stmt s db) as [e|db1] eqn:E; simpl.
    + apply extends_refl.
    + eapply extends_trans; [by eapply exec_stmt_extends | apply IH].
Qed.

Lemma exec_script_progress ss db :
  Forall (λ s, guarded s = true) ss →
  progress (fst (exec_script ss db)) ss (snd (exec_script ss db)).
Proof.
  intros Hg. revert db. induction Hg as [|s ss Hs Hg IH]; intros db; simpl.
  - constructor.
  - destruct (exec_stmt s db) as [e|db1] eqn:E; simpl.
    + by apply progress_stop.
    + apply progress_step; [|apply IH].
      eapply established_extends; [by eapply exec_stmt_establishes|].
      apply exec_script_extends.
Qed.

Lemma progress_rerun ss db o :
  Forall (λ s, guarded s = true) ss →
  progress db ss o → exec_script ss db = (db, o).
Proof.
  intros Hg Hp. induction Hp as [|s ss o He Hp IH|s ss e He]; simpl.
  - done.
  - inversion Hg; subst. rewrite exec_stmt_established by done. by apply IH.
  - by rewrite He.
Qed.

Lemma progress_complete ss db :
  progress db ss None → Forall (established db) ss.
Proof.
  intros Hp. remember None as o eqn:Ho.
  induction Hp as [|s ss o He Hp IH|s ss e He]; [constructor| |done].
  constructor; [done | by apply IH].
Qed.

(** Running a guarded script on the catalog it left gives the same
    catalog and the same outcome. *)
Lemma exec_script_rerun ss db :
  Forall (λ s, guarded s = true) ss →
  exec_script ss (fst (exec_script ss db)) = exec_script ss db.
Proof.
  intros Hg. rewrite (progress_rerun ss _ (snd (exec_script ss db))).
  - by destruct (exec_script ss db).
  - done.
  - by apply exec_script_progress.
Qed.

Lemma exec_times_rerun ss db n :
  Forall (λ s, guarded s = true) ss →
  exec_times (S n) ss db = exec_script ss db.
Proof.
  intros Hg. induction n as [|n IH]; [done|].
  change (exec_times (S (S n)) ss db)
    with (exec_script ss (fst (exec_times (S n) ss db))).
  rewrite IH. by apply exec_script_rerun.
Qed.

(** After a run without error, each statement on its own is a no-op. *)
Lemma exec_script_settled ss db db' :
  Forall (λ s, guarded s = true) ss →
  exec_script ss db = (db', None) →
  Forall (λ s, exec_stmt s db' = inr db') ss.
Proof.
  intros Hg Hrun.
  pose proof (exec_script_progress ss db Hg) as Hp. rewrite Hrun in Hp. simpl in Hp.
  apply progress_complete in Hp.
  rewrite Forall_forall in Hg, Hp |- *.
  intros s Hs. apply exec_stmt_established; auto.
Qed.

(** A statement complains of a missing relation only if it is missing. *)
Lemma exec_stmt_undefined_table s db t :
  exec_stmt s db = inl (undefined_table t) → relations db !! t = None.
Proof.
  destruct s as [ine e | t' ine c ty nn | ine i t' m c oc]; simpl.
  - repeat case_bool_decide; destruct ine; done.
  - destruct (relations db !! t') as [r|] eqn:Hr; [|by intros [= <-]].
    destruct (rel_kind r); [|done].
    destruct (find_column c r); [by destruct ine|].
    by destruct (type_defined db ty).
  - destruct (relations db !! t') as [r|] eqn:Hr; [|by intros [= <-]].
    destruct (rel_kind r); [|done].
    destruct (method_defined db m); [|done]. simpl.
    destruct (find_column c r) as [k|]; [|done].
    destruct (opclass_accepts oc (col_type k)); [|done]. simpl.
    destruct (name_taken db i); [by destruct ine|].
    by destruct (buildable m (col_type k)).
Qed.

Lemma progress_stopped ss db e :
  progress db ss (Some e) → ∃ s, s ∈ ss ∧ exec_stmt s db = inl e.
Proof.
  intros Hp. remember (Some e) as o eqn:Ho.
  induction Hp as [|s ss o He Hp IH|s ss e' He]; [done| |].
  - destruct (IH Ho) as (s' & Hin & Hs'). exists s'. split; [by right | done].
  - injection Ho as ->. exists s. split; [by left | done].
Qed.

(** A script of guarded statements never stops for want of a relation
    that was there when it started. *)
Lemma exec_script_relation_present ss db t :
  Forall (λ s, guarded s = true) ss →
  is_Some (relations db !! t) →
  snd (exec_script ss db) ≠ Some (undefined_table t).
Proof.
  intros Hg [r Hr] Herr.
  pose proof (exec_script_progress ss db Hg) as Hp. rewrite Herr in Hp.
  apply progress_stopped in Hp as (s & _ & Hs).
  apply exec_stmt_undefined_table in Hs.
  destruct (ext_relations _ _ (exec_script_extends ss db) _ _ Hr) as (r' & Hr' & _).
  congruence.
Qed.

(** Both ways of running a script end in the same outcome, and in the
    same catalog when there is no error. *)
Lemma exec_transaction_outcome ss db :
  snd (exec_transaction ss db) = snd (exec_script ss db).
Proof. unfold exec_transaction. by destruct (exec_script ss db) as [db' [e|]]. Qed.

Lemma exec_transaction_failed ss db db' e :
  exec_script ss db = (db', Some e) → exec_transaction ss db = (db, Some e).
Proof. intros E. unfold exec_transaction. by rewrite E. Qed.

Lemma exec_transaction_rerun ss db :
  Forall (λ s, guarded s = true) ss →
  exec_transaction ss (fst (exec_transaction ss db)) = exec_transaction ss db.
Proof.
  intros Hg. pose proof (exec_script_rerun ss db Hg) as Hre.
  unfold exec_transaction.
  destruct (exec_script ss db) as [db' [e|]] eqn:E; cbn [fst] in *.
  - by rewrite E.
  - by rewrite Hre.
Qed.

Lemma migration_guarded : Forall (λ s, guarded s = true) migration.
Proof. repeat constructor. Qed.

(** *** The exact effect of each kind of statement *)

Lemma is_Some_insert_present {V} (m : gmap string V) t x i :
  is_Some (m !! t) → (is_Some (<[t := x]> m !! i) ↔ is_Some (m !! i)).
Proof.
  intros Ht. destruct (decide (t = i)) as [->|Hne].
  - rewrite lookup_insert_eq. split; eauto.
  - by rewrite lookup_insert_ne.
Qed.

(** Only [CREATE INDEX] touches the indexes, and only it takes a name. *)
Lemma exec_stmt_keeps_names s db db' :
  kind_of s ≠ AddIndex → exec_stmt s db = inr db' →
  indexes db' = indexes db ∧ ∀ i, name_taken db' i = name_taken db i.
Proof.
  destruct s as [ine e | t ine c ty nn | ine i t m c oc]; simpl; intros Hk; [| |done].
  - repeat case_bool_decide; destruct ine; intros [= <-]; done.
  - destruct (relations db !! t) as [r|] eqn:Hr; [|done].
    destruct (rel_kind r); [|done].
    destruct (find_column c r).
    + destruct ine; intros [= <-]; done.
    + destruct (type_defined db ty); [|done]. intros [= <-]. split; [done|].
      intros i. unfold name_taken; simpl. f_equal.
      apply bool_decide_ext, is_Some_insert_present. eauto.
Qed.

Lemma create_extension_effect ine e db db' :
  exec_stmt (CreateExtension ine e) db = inr db' →
  relations db' = relations db ∧ e ∈ extensions db'.
Proof.
  simpl. repeat case_bool_decide; destruct ine; intros [= <-]; simpl;
    split; try done; apply elem_of_union_l, elem_of_singleton; done.
Qed.

Lemma create_extension_succeeds e db :
  e ∈ extensions db ∨ e ∈ installable db →
  ∃ db', exec_stmt (CreateExtension true e) db = inr db'.
Proof. intros He. simpl. repeat case_bool_decide; eauto. tauto. Qed.

(** A fresh column is appended to the table with the type and nullability
    the statement gives it. *)
Lemma add_column_effect t ine c ty nn db db' r :
  relations db !! t = Some r → find_column c r = None →
  exec_stmt (AlterTableAddColumn t ine c ty nn) db = inr db' →
  rel_kind r = Table ∧ extensions db' = extensions db ∧
  relations db' = <[ t := add_column (Column c ty nn) r ]> (relations db).
Proof.
  intros Hr Hc. simpl. rewrite Hr. destruct (rel_kind r); [|done].
  rewrite Hc. destruct (type_defined db ty); [|done]. by intros [= <-].
Qed.

Lemma add_column_succeeds t c d nn db r :
  relations db !! t = Some r → rel_kind r = Table → find_column c r = None →
  "vector" ∈ extensions db →
  ∃ db', exec_stmt (AlterTableAddColumn t true c (Tvector d) nn) db = inr db'.
Proof.
  intros Hr Hk Hc He. simpl. rewrite Hr, Hk, Hc.
  rewrite bool_decide_eq_true_2 by done. eauto.
Qed.

Lemma create_index_relations ine i t m c oc db db' :
  exec_stmt (CreateIndex ine i t m c oc) db = inr db' →
  relations db' = relations db.
Proof.
  simpl. destruct (relations db !! t) as [r|]; [|done].
  destruct (rel_kind r); [|done].
  destruct (method_defined db m); [|done]. simpl.
  destruct (find_column c r) as [k|]; [|done].
  destruct (opclass_accepts oc (col_type k)); [|done]. simpl.
  destruct (name_taken db i).
  - destruct ine; intros [= <-]; done.
  - destruct (buildable m (col_type k)); [|done]. by intros [= <-].
Qed.

(** Under a free name the index is created as the statement defines it. *)
Lemma create_index_effect ine i t m c oc db db' :
  name_taken db i = false →
  exec_stmt (CreateIndex ine i t m c oc) db = inr db' →
  indexes db' !! i = Some (Index t m c oc).
Proof.
  intros Hn. simpl. destruct (relations db !! t) as [r|]; [|done].
  destruct (rel_kind r); [|done].
  destruct (method_defined db m); [|done]. simpl.
  destruct (find_column c r) as [k|]; [|done].
  destruct (opclass_accepts oc (col_type k)); [|done]. simpl.
  rewrite Hn. destruct (buildable m (col_type k)); [|done].
  intros [= <-]. simpl. apply lookup_insert_eq.
Qed.

Lemma create_index_succeeds i t m c oc db r d nn :
  relations db !! t = Some r → rel_kind r = Table →
  "vector" ∈ extensions db →
  find_column c r = Some (Column c (Tvector (Some d)) nn) →
  (1 ≤ d ≤ max_dimensions m)%N →
  ∃ db', exec_stmt (CreateIndex true i t m c oc) db = inr db'.
Proof.
  intros Hr Hk He Hc Hd. simpl. rewrite Hr, Hk.
  unfold method_defined. rewrite bool_decide_eq_true_2 by done. simpl.
  rewrite Hc. simpl. destruct (name_taken db i); [eauto|].
  assert ((1 <=? d)%N && (d <=? max_dimensions m)%N = true) as ->; [|eauto].
  apply andb_true_iff. split; apply N.leb_le; lia.
Qed.

(** On a server that has pgvector, a table [service_search_view] without
    an [embedding] column is all the migration needs to go through. *)
Lemma migration_succeeds db r :
  "vector" ∈ extensions db ∨ "vector" ∈ installable db →
  relations db !! "service_search_view" = Some r →
  rel_kind r = Table →
  find_column "embedding" r = None →
  ∃ db', exec_script migration db = (db', None).
Proof.
  intros He Hr Hk Hc.
  destruct (create_extension_succeeds _ _ He) as [db1 E1].
  destruct (create_extension_effect _ _ _ _ E1) as [R1 X1].
  rewrite <- R1 in Hr.
  destruct (add_column_succeeds "service_search_view" "embedding"
              (Some 1536%N) false db1 r Hr Hk Hc X1) as [db2 E2].
  destruct (add_column_effect _ _ _ _ _ _ _ _ Hr Hc E2) as (_ & X2 & R2).
  destruct (create_index_succeeds "idx_embedding_cosine" "service_search_view"
              hnsw "embedding" vector_cosine_ops db2
              (add_column (Column "embedding" (Tvector (Some 1536%N)) false) r)
              1536%N false) as [db3 E3].
  - rewrite R2. apply lookup_insert_eq.
  - done.
  - by rewrite X2.
  - by apply find_column_add_eq.
  - unfold max_dimensions. lia.
  - exists db3. unfold migration.
    rewrite (exec_script_cons_ok _ _ _ _ E1), (exec_script_cons_ok _ _ _ _ E2),
      (exec_script_cons_ok _ _ _ _ E3). done.
Qed.

End ScriptFacts.

(** ** The migration: the claims *)

Section MigrationClaims.
Import Text Sql Source.

(** C1, as stated, fails.  [service_search_view] exists, as a view, and
    the migration ends in an error the first time and on re-execution
    alike, whether its statements are committed one by one or it runs as
    one transaction. *)
Lemma migration_fails_again_on_view :
  is_Some (relations Cases.as_view !! "service_search_view") ∧
  snd (exec_times 1 migration Cases.as_view)
    = Some (wrong_object_type "service_search_view") ∧
  snd (exec_times 2 migration Cases.as_view)
    = Some (wrong_object_type "service_search_view") ∧
  exec_transaction migration Cases.as_view
    = (Cases.as_view, Some (wrong_object_type "service_search_view")).
Proof.
  split; [eexists; vm_compute; reflexivity|].
  split; [|split]; vm_compute; reflexivity.
Qed.

(** C1, amended.  Every statement carries its [IF NOT EXISTS] guard.  On a
    database where [service_search_view] exists, executing the script
    [n + 1] times in a row leaves the catalog, and the outcome, that
    executing it once leaves, and running it again as one transaction
    gives what running it once as one transaction gave; no execution
    stops for want of the relation.  When the first execution raises no
    error, no later one does, and each statement then leaves the catalog
    as it is. *)
Theorem migration_idempotent (db : database) (n : nat) :
  is_Some (relations db !! "service_search_view") →
  Forall (λ s, guarded s = true) migration ∧
  exec_times (S n) migration db = exec_times 1 migration db ∧
  exec_transaction migration (fst (exec_transaction migration db))
    = exec_transaction migration db ∧
  snd (exec_times (S n) migration db) ≠ Some (undefined_table "service_search_view") ∧
  (∀ db', exec_script migration db = (db', None) →
          exec_times (S n) migration db = (db', None) ∧
          Forall (λ s, exec_stmt s db' = inr db') migration).
Proof.
  intros Hrel. split; [apply migration_guarded|]. split; [|split; [|split]].
  - by rewrite !exec_times_rerun by apply migration_guarded.
  - apply exec_transaction_rerun, migration_guarded.
  - rewrite exec_times_rerun by apply migration_guarded.
    by apply exec_script_relation_present; [apply migration_guarded|].
  - intros db' Hrun. split.
    + rewrite exec_times_rerun by apply migration_guarded. done.
    + eapply exec_script_settled; [apply migration_guarded | done].
Qed.

(** On the sample database the first execution raises no error, and so
    the third raises none and changes nothing. *)
Lemma migration_idempotent_witness :
  is_Some (relations Sample.catalog !! "service_search_view") ∧
  exec_script migration Sample.catalog
    = (fst (exec_script migration Sample.catalog), None) ∧
  exec_times 3 migration Sample.catalog = exec_times 1 migration Sample.catalog ∧
  exec_transaction migration (fst (exec_transaction migration Sample.catalog))
    = exec_transaction migration Sample.catalog ∧
  exec_times 3 migration Sample.catalog
    = (fst (exec_script migration Sample.catalog), None) ∧
  Forall (λ s, exec_stmt s (fst (exec_script migration Sample.catalog))
               = inr (fst (exec_script migration Sample.catalog))) migration.
Proof.
  assert (H1 : is_Some (relations Sample.catalog !! "service_search_view"))
    by (exists Sample.services; vm_compute; reflexivity).
  assert (H2 : exec_script migration Sample.catalog
               = (fst (exec_script migration Sample.catalog), None))
    by (vm_compute; reflexivity).
  destruct (migration_idempotent Sample.catalog 2 H1) as (_ & E & T & _ & Hs).
  destruct (Hs _ H2) as [R S].
  split; [exact H1|]. split; [exact H2|]. split; [exact E|].
  split; [exact T|]. split; [exact R | exact S].
Defined.

(** The sample database takes the migration without error. *)
Example migration_on_sample_catalog :
  snd (exec_script migration Sample.catalog) = None.
Proof. vm_compute. reflexivity. Qed.

(** C4, as the spec words it, fails: the script does not have two
    statements. *)
Lemma migration_statement_count_is_not_two :
  length (statements migration_sql) ≠ 2.
Proof. vm_compute. discriminate. Qed.

(** C4, amended.  The SQL fragment consists of exactly three statements,
    which are, word for word, the three of [migration]: one enables an
    extension, one adds a column, one adds an index. *)
Theorem migration_has_three_statements :
  length (statements migration_sql) = 3 ∧
  statements migration_sql = map (λ s, String.words (show_stmt s)) migration ∧
  map kind_of migration = [EnableExtension; AddColumn; AddIndex].
Proof. split; [|split]; vm_compute; reflexivity. Qed.

(** C6. The [embedding] column the migration adds to
    [service_search_view] has type [vector(1536)] and is nullable; the
    type admits NULL and, of the vectors, exactly those of 1536
    dimensions. *)
Theorem embedding_column_is_vector_1536 {A : Type}
    (db db' : database) (r : relation) :
  relations db !! "service_search_view" = Some r →
  find_column "embedding" r = None →
  exec_script migration db = (db', None) →
  ∃ r' k, relations db' !! "service_search_view" = Some r' ∧
          find_column "embedding" r' = Some k ∧
          k = Column "embedding" (Tvector (Some 1536%N)) false ∧
          admits k (@None (list A)) = true ∧
          ∀ xs : list A, admits k (Some xs) = true ↔ N.of_nat (length xs) = 1536%N.
Proof.
  intros Hr Hc Hrun. unfold migration in Hrun.
  apply exec_script_cons_inv in Hrun as (db1 & E1 & Hrun).
  apply exec_script_cons_inv in Hrun as (db2 & E2 & Hrun).
  apply exec_script_cons_inv in Hrun as (db3 & E3 & Hrun).
  apply exec_script_nil_inv in Hrun as [-> _].
  apply create_extension_effect in E1 as [R1 _]. rewrite <- R1 in Hr.
  destruct (add_column_effect _ _ _ _ _ _ _ _ Hr Hc E2) as (_ & _ & R2).
  apply create_index_relations in E3 as R3.
  eexists _, _. split.
  { rewrite R3, R2. apply lookup_insert_eq. }
  split; [by apply find_column_add_eq|]. split; [done|]. split; [done|].
  intros xs. simpl. apply N.eqb_eq.
Qed.

Lemma embedding_column_is_vector_1536_witness :
  relations Sample.catalog !! "service_search_view" = Some Sample.services ∧
  find_column "embedding" Sample.services = None ∧
  exec_script migration Sample.catalog
    = (fst (exec_script migration Sample.catalog), None) ∧
  ∃ r' k,
    relations (fst (exec_script migration Sample.catalog)) !! "service_search_view"
      = Some r' ∧
    find_column "embedding" r' = Some k ∧
    k = Column "embedding" (Tvector (Some 1536%N)) false ∧
    admits k (@None (list Z)) = true ∧
    ∀ xs : list Z, admits k (Some xs) = true ↔ N.of_nat (length xs) = 1536%N.
Proof.
  assert (H1 : relations Sample.catalog !! "service_search_view" = Some Sample.services)
    by (vm_compute; reflexivity).
  assert (H2 : find_column "embedding" Sample.services = None)
    by (vm_compute; reflexivity).
  assert (H3 : exec_script migration Sample.catalog
               = (fst (exec_script migration Sample.catalog), None))
    by (vm_compute; reflexivity).
  split; [exact H1|]. split; [exact H2|]. split; [exact H3|].
  exact (embedding_column_is_vector_1536 (A := Z) _ _ _ H1 H2 H3).
Defined.

(** C7. The index the migration creates under the name
    [idx_embedding_cosine] is an HNSW index on column [embedding] of
    [service_search_view], with the operator class of cosine distance. *)
Theorem idx_embedding_cosine_is_hnsw_cosine (db db' : database) :
  name_taken db "idx_embedding_cosine" = false →
  exec_script migration db = (db', None) →
  ∃ ix, indexes db' !! "idx_embedding_cosine" = Some ix ∧
        idx_method ix = hnsw ∧
        idx_table ix = "service_search_view" ∧
        idx_column ix = "embedding" ∧
        idx_opclass ix = vector_cosine_ops ∧
        metric_of (idx_opclass ix) = Cosine.
Proof.
  intros Hn Hrun. unfold migration in Hrun.
  apply exec_script_cons_inv in Hrun as (db1 & E1 & Hrun).
  apply exec_script_cons_inv in Hrun as (db2 & E2 & Hrun).
  apply exec_script_cons_inv in Hrun as (db3 & E3 & Hrun).
  apply exec_script_nil_inv in Hrun as [-> _].
  apply exec_stmt_keeps_names in E1 as [_ N1]; [|done].
  apply exec_stmt_keeps_names in E2 as [_ N2]; [|done].
  rewrite <- N1, <- N2 in Hn.
  eexists. split; [exact (create_index_effect _ _ _ _ _ _ _ _ Hn E3)|]. done.
Qed.

Lemma idx_embedding_cosine_is_hnsw_cosine_witness :
  name_taken Sample.catalog "idx_embedding_cosine" = false ∧
  exec_script migration Sample.catalog
    = (fst (exec_script migration Sample.catalog), None) ∧
  ∃ ix, indexes (fst (exec_script migration Sample.catalog)) !! "idx_embedding_cosine"
          = Some ix ∧
        idx_method ix = hnsw ∧
        idx_table ix = "service_search_view" ∧
        idx_column ix = "embedding" ∧
        idx_opclass ix = vector_cosine_ops ∧
        metric_of (idx_opclass ix) = Cosine.
Proof.
  assert (H1 : name_taken Sample.catalog "idx_embedding_cosine" = false)
    by (vm_compute; reflexivity).
  assert (H2 : exec_script migration Sample.catalog
               = (fst (exec_script migration Sample.catalog), None))
    by (vm_compute; reflexivity).
  split; [exact H1|]. split; [exact H2|].
  exact (idx_embedding_cosine_is_hnsw_cosine _ _ H1 H2).
Defined.

(** C8. The name [service_search_view] occurs in no file of the frontend;
    the migration is where it is written. *)
Theorem relation_name_absent_from_frontend :
  Forall (λ file, occurs "service_search_view" (unlines file) = false) frontend ∧
  occurs "service_search_view" (unlines migration_sql) = true.
Proof. split; [repeat constructor|]; vm_compute; reflexivity. Qed.

End MigrationClaims.

(** ** Numbers *)

Section NumberFacts.
Local Open Scope Z_scope.

(** Integers of magnitude up to [2^53] are their own rounding. *)
Lemma round_to_double_exact (z : Z) :
  Z.abs z ≤ Number.MAX_EXACT → Number.round_to_double z = z.
Proof.
  unfold Number.MAX_EXACT. intros Hz.
  destruct (Z.eq_dec (Z.abs z) (2 ^ 53)) as [Heq|Hne].
  - destruct (Z.abs_eq_or_opp z) as [Ha|Ha]; rewrite Ha in Heq.
    + subst z. vm_compute. reflexivity.
    + assert (z = - 2 ^ 53) as -> by lia. vm_compute. reflexivity.
  - unfold Number.round_to_double.
    destruct (Z.eq_dec (Z.abs z) 0) as [H0|H0].
    + rewrite H0. simpl. reflexivity.
    + assert (Z.log2 (Z.abs z) < 53) as Hlog.
      { apply Z.log2_lt_pow2; lia. }
      destruct (Z.leb_spec (Z.log2 (Z.abs z) - 52) 0); [reflexivity | lia].
Qed.

(** The rounding agrees with the machine's binary64 arithmetic where the
    counter meets it. *)
Example add_one_on_binary64 :
  Forall (λ c, PrimFloat.eqb
                 (PrimFloat.add (Number.to_binary64 c) (Number.to_binary64 1))
                 (Number.to_binary64 (Number.add c 1)) = true)
    [0; 1; 41; 2 ^ 52; 2 ^ 53 - 2; 2 ^ 53 - 1; 2 ^ 53].
Proof. repeat constructor. Qed.

Example round_to_double_on_binary64 :
  Forall (λ z, PrimFloat.eqb (Number.to_binary64 z)
                 (Number.to_binary64 (Number.round_to_double z)) = true)
    [2 ^ 53 + 1; 2 ^ 53 + 2; 2 ^ 53 + 3; 2 ^ 60 + 127; 2 ^ 60 + 128;
     2 ^ 60 + 129; 2 ^ 60 + 384; 2 ^ 62 + 1].
Proof. repeat constructor. Qed.

Lemma add_one_exact (c : Z) :
  0 ≤ c < Number.MAX_EXACT → Number.add c 1 = c + 1.
Proof.
  intros Hc. unfold Number.add. apply round_to_double_exact. lia.
Qed.

(** At [2^53] adding one is lost to rounding. *)
Lemma add_one_at_limit : Number.add Number.MAX_EXACT 1 = Number.MAX_EXACT.
Proof. vm_compute. reflexivity. Qed.

Lemma add_one_saturates (c : Z) :
  0 ≤ c ≤ Number.MAX_EXACT →
  Number.add c 1 = Z.min (c + 1) Number.MAX_EXACT.
Proof.
  intros Hc. destruct (Z.eq_dec c Number.MAX_EXACT) as [->|Hne].
  - rewrite add_one_at_limit. unfold Number.MAX_EXACT. lia.
  - rewrite add_one_exact by lia. lia.
Qed.

End NumberFacts.

(** ** [App]: the page and its counter, whatever the provider's gates do *)

Section PageFacts.
Import Jsx View.
Context {signal : Type} `{IdentityProvider signal}.
Variable a : assets.
Implicit Types (s : signal) (p : @page signal) (es : list (@event signal)).
Local Open Scope Z_scope.

Lemma outside_header_eq s c :
  outside_header a s c = [logos a; heading; card c; footer].
Proof. reflexivity. Qed.

(** The header holds what the two gates let through, [SignedOut] first. *)
Lemma rendered_header_eq s c :
  rendered_header a s c
  = [Element (Host "header") (props_of header)
       (signed_out_children s signed_out_view ++
        signed_in_children s signed_in_view ++ [])].
Proof. reflexivity. Qed.

Lemma rendered_button_eq s c :
  rendered_button a s c = Some (counter_button c).
Proof. reflexivity. Qed.

Lemma displayed_eq s c :
  displayed a s c = Some ("count is " +:+ Number.toString c).
Proof.
  unfold displayed. rewrite rendered_button_eq. reflexivity.
Qed.

(** A click applies [count => count + 1] to the state. *)
Lemma click_eq p : click a p = Number.add (count p) 1.
Proof. unfold click. rewrite rendered_button_eq. reflexivity. Qed.

Lemma activations_cons_activate es :
  activations (Activate :: es) = S (activations es).
Proof. reflexivity. Qed.

Lemma activations_cons_auth s es :
  activations (AuthChange s :: es) = activations es.
Proof. reflexivity. Qed.

Lemma activations_repeat (n : nat) :
  activations (repeat (@Activate signal) n) = n.
Proof.
  induction n as [|n IH]; [done|].
  change (repeat (@Activate signal) (S n)) with (Activate :: repeat (@Activate signal) n).
  by rewrite activations_cons_activate, IH.
Qed.

(** The counter after a run: one more per activation, up to [2^53]. *)
Lemma count_run p es :
  0 ≤ count p ≤ Number.MAX_EXACT →
  count (run a p es) = Z.min (count p + Z.of_nat (activations es)) Number.MAX_EXACT.
Proof.
  generalize Number.MAX_EXACT add_one_saturates. intros M Hadd.
  revert p. induction es as [|e es IH]; intros p Hp.
  - cbn. lia.
  - change (run a p (e :: es)) with (run a (step a p e) es).
    destruct e as [|s].
    + rewrite IH; cbn [step count].
      * rewrite click_eq, Hadd, activations_cons_activate by done. lia.
      * rewrite click_eq, Hadd by done. lia.
    + rewrite IH by done. cbn [step count].
      by rewrite activations_cons_auth.
Qed.

Lemma count_run_mounted s es :
  count (run a (mounted s) es) = Z.min (Z.of_nat (activations es)) Number.MAX_EXACT.
Proof.
  rewrite count_run; [done|]. cbn [mounted count].
  unfold initial_count, Number.MAX_EXACT. split; [lia | apply Z.pow_nonneg; lia].
Qed.

Lemma run_snoc p es e : run a p (es ++ [e]) = step a (run a p es) e.
Proof. unfold run. by rewrite fold_left_app. Qed.

Lemma label_eq p : label a p = Some ("count is " +:+ Number.toString (count p)).
Proof. apply displayed_eq. Qed.

End PageFacts.

(** ** [App]: the claims *)

Section PageClaims.
Import Jsx View.
Context {signal : Type} `{IdentityProvider signal}.
Variable a : assets.
Implicit Types (s : signal) (p : @page signal) (es : list (@event signal)).
Local Open Scope Z_scope.

Lemma activations_filter es :
  activations (List.filter is_activation es) = activations es.
Proof.
  unfold activations. f_equal.
  induction es as [|e es IH]; [done|].
  destruct e; cbn; by rewrite IH.
Qed.

(** C3, amended.  For every number [n] of activations of the counter
    button up to [2^53], whatever happens to the signed-in signal in
    between, the counter holds [n] and the button reads "count is n";
    before any activation it reads "count is 0". *)
Theorem counter_shows_activations s es :
  Z.of_nat (activations es) ≤ Number.MAX_EXACT →
  label a (mounted s) = Some "count is 0" ∧
  count (run a (mounted s) es) = Z.of_nat (activations es) ∧
  label a (run a (mounted s) es)
    = Some ("count is " +:+ Number.toString (Z.of_nat (activations es))).
Proof.
  intros Hn. split; [reflexivity|].
  assert (count (run a (mounted s) es) = Z.of_nat (activations es)) as Hc.
  { rewrite count_run_mounted. lia. }
  split; [exact Hc|]. by rewrite label_eq, Hc.
Qed.

(** C9, amended.  The button's handler is the functional update
    [count => count + 1].  While fewer than [2^53] activations have been
    made, the next one changes the counter by exactly [+1]: up to there
    the counter strictly increases, one by one. *)
Theorem activation_adds_one s es :
  Z.of_nat (activations es) < Number.MAX_EXACT →
  find_prop "onClick" (props_of (counter_button (count (run a (mounted s) es))))
    = Some (PHandler increment) ∧
  count (step a (run a (mounted s) es) Activate) = count (run a (mounted s) es) + 1 ∧
  count (run a (mounted s) es) < count (run a (mounted s) (es ++ [Activate])).
Proof.
  intros Hn. split; [reflexivity|].
  assert (count (step a (run a (mounted s) es) Activate)
          = count (run a (mounted s) es) + 1) as Hstep.
  { cbn [step count]. rewrite click_eq. apply add_one_exact.
    rewrite count_run_mounted. lia. }
  split; [exact Hstep|]. rewrite run_snoc, Hstep. lia.
Qed.

(** C10. The signed-in signal reaches the header and nothing else: what
    is rendered outside the header is the same under any two signals (the
    logos, the heading, the card and the footer, as [App] wrote them); a
    change of signal leaves the counter alone, and neither the signal at
    mount time nor its changes along a run show in the counter. *)
Theorem signal_reaches_header_only (s1 s2 : signal) (c : Z) p es :
  outside_header a s1 c = outside_header a s2 c ∧
  outside_header a s1 c = [logos a; heading; card c; footer] ∧
  count (step a p (AuthChange s1)) = count p ∧
  count (run a (mounted s1) es)
    = count (run a (mounted s2) (List.filter is_activation es)).
Proof.
  split; [reflexivity|]. split; [reflexivity|]. split; [reflexivity|].
  by rewrite !count_run_mounted, activations_filter.
Qed.

End PageClaims.

Section BooleanProviderClaims.
Import Jsx View.
Local Open Scope Z_scope.

(** C2. Under the provider's boolean signal exactly one of the two views
    is on the page: the signed-in view when the signal is on, the
    signed-out view when it is off, whatever the counter and the assets
    are; the header holds that view and nothing else. *)
Theorem exactly_one_auth_view (a : assets) (s : bool) (c : Z) :
  xorb (shows_signed_out a s c) (shows_signed_in a s c) = true ∧
  shows_signed_in a s c = s ∧
  shows_signed_out a s c = negb s ∧
  rendered_header a s c
    = [Element (Host "header") (props_of header)
         (if s then signed_in_view else signed_out_view)].
Proof. destruct s; repeat split. Qed.

Lemma counter_shows_activations_witness :
  Z.of_nat (activations [Activate; AuthChange true; Activate; Activate])
    ≤ Number.MAX_EXACT ∧
  (label Sample.bundle (mounted false) = Some "count is 0" ∧
   count (run Sample.bundle (mounted false)
            [Activate; AuthChange true; Activate; Activate])
     = Z.of_nat (activations [Activate; AuthChange true; Activate; Activate]) ∧
   label Sample.bundle (run Sample.bundle (mounted false)
                          [Activate; AuthChange true; Activate; Activate])
     = Some ("count is " +:+ Number.toString
               (Z.of_nat (activations [Activate; AuthChange true; Activate; Activate])))).
Proof.
  assert (Hn : Z.of_nat (activations [Activate; AuthChange true; Activate; Activate])
               ≤ Number.MAX_EXACT) by (vm_compute; discriminate).
  split; [exact Hn|].
  exact (counter_shows_activations Sample.bundle false _ Hn).
Defined.

(** C3, as the spec words it, fails: after [2^53 + 1] activations the
    button still reads [2^53]. *)
Lemma counter_stops_at_limit :
  activations (repeat (@Activate bool) (Z.to_nat 9007199254740993))
    = Z.to_nat 9007199254740993 ∧
  count (run Sample.bundle (mounted false)
           (repeat Activate (Z.to_nat 9007199254740993)))
    = 9007199254740992 ∧
  label Sample.bundle (run Sample.bundle (mounted false)
                         (repeat Activate (Z.to_nat 9007199254740993)))
    = Some "count is 9007199254740992" ∧
  count (run Sample.bundle (mounted false)
           (repeat Activate (Z.to_nat 9007199254740993)))
    ≠ Z.of_nat (activations (repeat (@Activate bool) (Z.to_nat 9007199254740993))).
Proof.
  assert (count (run Sample.bundle (mounted false)
                   (repeat Activate (Z.to_nat 9007199254740993)))
          = 9007199254740992) as Hc.
  { rewrite count_run_mounted, activations_repeat.
    rewrite Z2Nat.id by (intros Hx; discriminate Hx).
    vm_compute. reflexivity. }
  split; [apply activations_repeat|]. split; [exact Hc|]. split.
  - rewrite label_eq, Hc. vm_compute. reflexivity.
  - rewrite Hc, activations_repeat.
    rewrite Z2Nat.id by (intros Hx; discriminate Hx).
    intros Hx. discriminate Hx.
Qed.

Lemma activation_adds_one_witness :
  Z.of_nat (activations [@Activate bool; Activate]) < Number.MAX_EXACT ∧
  (find_prop "onClick"
     (props_of (counter_button
                  (count (run Sample.bundle (mounted false) [Activate; Activate]))))
     = Some (PHandler increment) ∧
   count (step Sample.bundle (run Sample.bundle (mounted false) [Activate; Activate])
            Activate)
     = count (run Sample.bundle (mounted false) [Activate; Activate]) + 1 ∧
   count (run Sample.bundle (mounted false) [Activate; Activate])
     < count (run Sample.bundle (mounted false) ([Activate; Activate] ++ [Activate]))).
Proof.
  assert (Hn : Z.of_nat (activations [@Activate bool; Activate]) < Number.MAX_EXACT)
    by (vm_compute; reflexivity).
  split; [exact Hn|].
  exact (activation_adds_one Sample.bundle false _ Hn).
Defined.

(** C9, as stated, fails: once [2^53] activations have been made, one
    more leaves the counter where it is. *)
Lemma activation_at_limit_adds_nothing :
  count (step Sample.bundle
           (run Sample.bundle (mounted false)
              (repeat Activate (Z.to_nat 9007199254740992)))
           Activate)
  = count (run Sample.bundle (mounted false)
             (repeat Activate (Z.to_nat 9007199254740992))) ∧
  count (run Sample.bundle (mounted false)
           (repeat Activate (Z.to_nat 9007199254740992)))
  = 9007199254740992 ∧
  count (step Sample.bundle
           (run Sample.bundle (mounted false)
              (repeat Activate (Z.to_nat 9007199254740992)))
           Activate)
  ≠ count (run Sample.bundle (mounted false)
             (repeat Activate (Z.to_nat 9007199254740992))) + 1.
Proof.
  assert (count (run Sample.bundle (mounted false)
                   (repeat Activate (Z.to_nat 9007199254740992)))
          = 9007199254740992) as Hc.
  { rewrite count_run_mounted, activations_repeat.
    rewrite Z2Nat.id by (intros Hx; discriminate Hx).
    vm_compute. reflexivity. }
  assert (count (step Sample.bundle
                   (run Sample.bundle (mounted false)
                      (repeat Activate (Z.to_nat 9007199254740992)))
                   Activate)
          = 9007199254740992) as Hs.
  { cbn [step count]. rewrite click_eq, Hc. vm_compute. reflexivity. }
  split; [exact (eq_trans Hs (eq_sym Hc))|]. split; [exact Hc|].
  rewrite Hs, Hc. intros Hx. discriminate Hx.
Qed.

End BooleanProviderClaims.

(** ** The render entry point: the claims *)

Section MainClaims.
Import Jsx Main.

(** C5, as the spec words it, fails: the provider is not configured with
    one value only. *)
Lemma provider_configuration_is_not_single :
  length (configuration Sample.publishable_key) ≠ 1.
Proof. vm_compute. discriminate. Qed.

(** C5, amended.  The render entry point mounts, at the element [root],
    the identity provider with two props, the publishable key string it
    is given and the fixed [afterSignOutUrl] "/", and the provider's only
    child is the [App] tree. *)
Theorem provider_configuration (key : string) :
  container_id (main key) = "root" ∧
  mounted_provider key = Some (provider key) ∧
  configuration key
    = [("publishableKey", PString key); ("afterSignOutUrl", PString "/")] ∧
  children_of (provider key) = [Element (Comp AppElement) [] []].
Proof. repeat split. Qed.

End MainClaims.


(* ===================================================================== *)
(** * Further properties of the migration                                 *)
(* ===================================================================== *)

Section ExactSteps.
Import Sql.
Implicit Types (db d : database) (r : relation) (k : column) (s : stmt).

Lemma with_extension_present e db :
  e ∈ extensions db → with_extension e db = db.
Proof.
  intros He. destruct db as [ins exts rels idxs]. unfold with_extension.
  cbn [installable extensions relations indexes] in *. f_equal.
  apply subseteq_union_1_L, singleton_subseteq_l, He.
Qed.

Lemma create_extension_ensures e db :
  e ∈ extensions db ∨ e ∈ installable db →
  exec_stmt (CreateExtension true e) db = inr (with_extension e db).
Proof.
  intros He. simpl. case_bool_decide as Hin.
  - by rewrite with_extension_present.
  - rewrite bool_decide_eq_true_2; [done | tauto].
Qed.

Lemma create_extension_unavailable ine e db :
  e ∉ extensions db → e ∉ installable db →
  exec_stmt (CreateExtension ine e) db = inl (extension_unavailable e).
Proof.
  intros H1 H2. simpl. by rewrite !bool_decide_eq_false_2.
Qed.



Lemma add_column_fresh t ine c ty nn db r :
  relations db !! t = Some r → rel_kind r = Table → find_column c r = None →
  type_defined db ty = true →
  exec_stmt (AlterTableAddColumn t ine c ty nn) db
  = inr (with_relation t (add_column (Column c ty nn) r) db).
Proof. intros Hr Hk Hc Ht. simpl. by rewrite Hr, Hk, Hc, Ht. Qed.

Lemma add_column_skipped t c ty nn db r k :
  relations db !! t = Some r → rel_kind r = Table → find_column c r = Some k →
  exec_stmt (AlterTableAddColumn t true c ty nn) db = inr db.
Proof. intros Hr Hk Hc. simpl. by rewrite Hr, Hk, Hc. Qed.

Lemma create_index_fresh ine i t m c oc db r k :
  relations db !! t = Some r → rel_kind r = Table →
  method_defined db m = true → find_column c r = Some k →
  opclass_accepts oc (col_type k) = true →
  name_taken db i = false → buildable m (col_type k) = true →
  exec_stmt (CreateIndex ine i t m c oc) db = inr (with_index i (Index t m c oc) db).
Proof.
  intros Hr Hk Hm Hc Ho Hn Hb. simpl. by rewrite Hr, Hk, Hm, Hc, Ho, Hn, Hb.
Qed.

Lemma create_index_mismatch ine i t m c oc db r k :
  relations db !! t = Some r → rel_kind r = Table →
  method_defined db m = true → find_column c r = Some k →
  opclass_accepts oc (col_type k) = false →
  exec_stmt (CreateIndex ine i t m c oc) db = inl (datatype_mismatch c).
Proof. intros Hr Hk Hm Hc Ho. simpl. by rewrite Hr, Hk, Hm, Hc, Ho. Qed.

(** What a statement that succeeds can have done. *)
Lemma create_extension_shape ine e d d' :
  exec_stmt (CreateExtension ine e) d = inr d' →
  d' = d ∨ d' = with_extension e d.
Proof.
  simpl. repeat case_bool_decide; destruct ine; intros [= <-]; auto.
Qed.

Lemma add_column_shape t ine c ty nn d d' :
  exec_stmt (AlterTableAddColumn t ine c ty nn) d = inr d' →
  d' = d ∨ ∃ r, relations d !! t = Some r ∧ find_column c r = None ∧
                d' = with_relation t (add_column (Column c ty nn) r) d.
Proof.
  simpl. destruct (relations d !! t) as [r|] eqn:Hr; [|done].
  destruct (rel_kind r); [|done].
  destruct (find_column c r) eqn:Hc.
  - destruct ine; intros [= <-]; auto.
  - destruct (type_defined d ty); [|done]. intros [= <-]. eauto.
Qed.

Lemma create_index_shape ine i t m c oc d d' :
  exec_stmt (CreateIndex ine i t m c oc) d = inr d' →
  d' = d ∨ (name_taken d i = false ∧ d' = with_index i (Index t m c oc) d).
Proof.
  simpl. destruct (relations d !! t) as [r|]; [|done].
  destruct (rel_kind r); [|done].
  destruct (method_defined d m); [|done]. simpl.
  destruct (find_column c r) as [k|]; [|done].
  destruct (opclass_accepts oc (col_type k)); [|done]. simpl.
  destruct (name_taken d i) eqn:Hn.
  - destruct ine; intros [= <-]; auto.
  - destruct (buildable m (col_type k)); [|done]. intros [= <-]. auto.
Qed.

Lemma name_free_index d i : name_taken d i = false → indexes d !! i = None.
Proof.
  intros Hn. destruct (indexes d !! i) as [ix|] eqn:Hi; [|done].
  by rewrite (name_taken_index _ _ _ Hi) in Hn.
Qed.

Lemma exec_script_cons s ss db :
  exec_script (s :: ss) db
  = match exec_stmt s db with
    | inl e => (db, Some e)
    | inr db' => exec_script ss db'
    end.
Proof. reflexivity. Qed.

(** What holds at the start and survives every statement that succeeds
    holds in the catalog the script leaves, error or not. *)
Lemma exec_script_invariant (I : database → Prop) ss db :
  I db →
  (∀ s d d', s ∈ ss → I d → exec_stmt s d = inr d' → I d') →
  I (fst (exec_script ss db)).
Proof.
  revert db. induction ss as [|s ss IH]; intros db Hdb Hstep; [done|].
  rewrite exec_script_cons. destruct (exec_stmt s db) as [e|db1] eqn:E; [done|].
  apply IH.
  - eapply Hstep; [by left | done | done].
  - intros s' d d' Hin. apply Hstep. by right.
Qed.

Lemma in_migration s :
  s ∈ migration →
  s = create_vector_extension ∨ s = add_embedding_column ∨ s = create_embedding_index.
Proof.
  unfold migration. intros Hs.
  apply elem_of_cons in Hs as [->|Hs]; [auto|].
  apply elem_of_cons in Hs as [->|Hs]; [auto|].
  apply elem_of_cons in Hs as [->|Hs]; [auto|].
  by apply elem_of_nil in Hs.
Qed.

End ExactSteps.

Section MigrationCases.
Import Sql.
Implicit Types (db d : database) (r : relation) (k : column) (s : stmt).

(** X1. On a table [service_search_view] without an [embedding] column,
    with pgvector at hand and the index name free, the migration goes
    through and leaves exactly this: the extension created, the column
    appended to the table, the index added.  Nothing else differs. *)
Theorem migration_on_fresh_table db r :
  "vector" ∈ extensions db ∨ "vector" ∈ installable db →
  relations db !! "service_search_view" = Some r →
  rel_kind r = Table →
  find_column "embedding" r = None →
  name_taken db "idx_embedding_cosine" = false →
  exec_script migration db
  = (with_index "idx_embedding_cosine"
       (Index "service_search_view" hnsw "embedding" vector_cosine_ops)
       (with_relation "service_search_view"
          (add_column (Column "embedding" (Tvector (Some 1536%N)) false) r)
          (with_extension "vector" db)),
     None).
Proof.
  intros He Hr Hk Hc Hn.
  pose proof (create_extension_ensures _ _ He) as E1.
  assert (Hx : "vector" ∈ extensions (with_extension "vector" db)).
  { apply elem_of_union_l, elem_of_singleton. reflexivity. }
  pose proof (add_column_fresh "service_search_view" true "embedding"
                (Tvector (Some 1536%N)) false (with_extension "vector" db) r
                Hr Hk Hc (bool_decide_eq_true_2 _ Hx)) as E2.
  destruct (exec_stmt_keeps_names create_vector_extension _ _ ltac:(done) E1)
    as [_ N1].
  destruct (exec_stmt_keeps_names add_embedding_column _ _ ltac:(done) E2)
    as [_ N2].
  unfold migration.
  rewrite (exec_script_cons_ok _ _ _ _ E1), (exec_script_cons_ok _ _ _ _ E2).
  erewrite exec_script_cons_ok; [reflexivity|].
  eapply create_index_fresh.
  - cbn [relations with_relation]. apply lookup_insert_eq.
  - exact Hk.
  - apply bool_decide_eq_true_2. exact Hx.
  - by apply find_column_add_eq.
  - reflexivity.
  - by rewrite N2, N1.
  - vm_compute. reflexivity.
Qed.

Lemma migration_on_fresh_table_witness :
  ("vector" ∈ extensions Sample.catalog ∨ "vector" ∈ installable Sample.catalog) ∧
  relations Sample.catalog !! "service_search_view" = Some Sample.services ∧
  rel_kind Sample.services = Table ∧
  find_column "embedding" Sample.services = None ∧
  name_taken Sample.catalog "idx_embedding_cosine" = false ∧
  exec_script migration Sample.catalog
  = (with_index "idx_embedding_cosine"
       (Index "service_search_view" hnsw "embedding" vector_cosine_ops)
       (with_relation "service_search_view"
          (add_column (Column "embedding" (Tvector (Some 1536%N)) false)
             Sample.services)
          (with_extension "vector" Sample.catalog)),
     None).
Proof.
  assert (H1 : "vector" ∈ extensions Sample.catalog ∨ "vector" ∈ installable Sample.catalog).
  { right. apply (bool_decide_eq_true_1 _). vm_compute. reflexivity. }
  assert (H2 : relations Sample.catalog !! "service_search_view" = Some Sample.services)
    by (vm_compute; reflexivity).
  assert (H3 : rel_kind Sample.services = Table) by reflexivity.
  assert (H4 : find_column "embedding" Sample.services = None)
    by (vm_compute; reflexivity).
  assert (H5 : name_taken Sample.catalog "idx_embedding_cosine" = false)
    by (vm_compute; reflexivity).
  split; [exact H1|]. split; [exact H2|]. split; [exact H3|].
  split; [exact H4|]. split; [exact H5|].
  exact (migration_on_fresh_table _ _ H1 H2 H3 H4 H5).
Defined.





(** X4. On a server without pgvector the first statement fails and the
    catalog is left as it was. *)
Theorem migration_without_pgvector db :
  "vector" ∉ extensions db → "vector" ∉ installable db →
  exec_script migration db = (db, Some (extension_unavailable "vector")).
Proof.
  intros H1 H2. unfold migration. rewrite exec_script_cons.
  unfold create_vector_extension.
  by rewrite (create_extension_unavailable true "vector" db H1 H2).
Qed.

Lemma migration_without_pgvector_witness :
  ("vector" ∉ extensions Cases.no_pgvector) ∧
  ("vector" ∉ installable Cases.no_pgvector) ∧
  exec_script migration Cases.no_pgvector
  = (Cases.no_pgvector, Some (extension_unavailable "vector")).
Proof.
  assert (H1 : "vector" ∉ extensions Cases.no_pgvector).
  { apply (bool_decide_eq_false_1 _). vm_compute. reflexivity. }
  assert (H2 : "vector" ∉ installable Cases.no_pgvector).
  { apply (bool_decide_eq_false_1 _). vm_compute. reflexivity. }
  split; [exact H1|]. split; [exact H2|].
  exact (migration_without_pgvector _ H1 H2).
Defined.

(** X5. A table that already has an [embedding] column keeps its columns
    as they are, whatever becomes of the run: the guard skips the column
    and no other statement touches a relation. *)
Theorem migration_keeps_existing_column db r k :
  relations db !! "service_search_view" = Some r →
  find_column "embedding" r = Some k →
  relations (fst (exec_script migration db)) = relations db.
Proof.
  intros Hr Hc.
  apply (exec_script_invariant (λ d, relations d = relations db)); [done|].
  intros s d d' Hs Hd E.
  apply in_migration in Hs as [-> | [-> | ->]].
  - apply create_extension_effect in E as [-> _]. done.
  - apply add_column_shape in E as [->|(r0 & Hr0 & Hc0 & _)]; [done|].
    rewrite Hd, Hr in Hr0. injection Hr0 as <-. congruence.
  - apply create_index_relations in E as ->. done.
Qed.

Lemma migration_keeps_existing_column_witness :
  relations Cases.with_text !! "service_search_view"
    = Some (Relation Table [Column "id" (Tbuiltin "integer") true;
                            Cases.embedding_text]) ∧
  find_column "embedding"
    (Relation Table [Column "id" (Tbuiltin "integer") true; Cases.embedding_text])
    = Some Cases.embedding_text ∧
  relations (fst (exec_script migration Cases.with_text)) = relations Cases.with_text.
Proof.
  assert (H1 : relations Cases.with_text !! "service_search_view"
               = Some (Relation Table [Column "id" (Tbuiltin "integer") true;
                                       Cases.embedding_text]))
    by (vm_compute; reflexivity).
  assert (H2 : find_column "embedding"
                 (Relation Table [Column "id" (Tbuiltin "integer") true;
                                  Cases.embedding_text])
               = Some Cases.embedding_text)
    by (vm_compute; reflexivity).
  split; [exact H1|]. split; [exact H2|].
  exact (migration_keeps_existing_column _ _ _ H1 H2).
Defined.

(** X6. When the table already has an [embedding] column of type
    [vector(d)], for any [d] an index can hold, the migration goes through
    without adding a column: the table stays as it is, with its [d]
    dimensions, and the index is built on that column. *)
Theorem migration_on_existing_vector_column db r k (dim : N) :
  "vector" ∈ extensions db ∨ "vector" ∈ installable db →
  relations db !! "service_search_view" = Some r →
  rel_kind r = Table →
  find_column "embedding" r = Some k →
  col_type k = Tvector (Some dim) →
  (1 ≤ dim ≤ max_dimensions hnsw)%N →
  name_taken db "idx_embedding_cosine" = false →
  exec_script migration db
  = (with_index "idx_embedding_cosine"
       (Index "service_search_view" hnsw "embedding" vector_cosine_ops)
       (with_extension "vector" db),
     None) ∧
  relations (fst (exec_script migration db)) !! "service_search_view" = Some r.
Proof.
  intros He Hr Hk Hc Hty Hdim Hn.
  pose proof (create_extension_ensures _ _ He) as E1.
  assert (Hx : "vector" ∈ extensions (with_extension "vector" db)).
  { apply elem_of_union_l, elem_of_singleton. reflexivity. }
  pose proof (add_column_skipped "service_search_view" "embedding"
                (Tvector (Some 1536%N)) false (with_extension "vector" db) r k
                Hr Hk Hc) as E2.
  destruct (exec_stmt_keeps_names create_vector_extension _ _ ltac:(done) E1)
    as [_ N1].
  assert (exec_script migration db
          = (with_index "idx_embedding_cosine"
               (Index "service_search_view" hnsw "embedding" vector_cosine_ops)
               (with_extension "vector" db), None)) as Hrun.
  { unfold migration.
    rewrite (exec_script_cons_ok _ _ _ _ E1), (exec_script_cons_ok _ _ _ _ E2).
    erewrite exec_script_cons_ok; [reflexivity|].
    eapply create_index_fresh.
    - exact Hr.
    - exact Hk.
    - apply bool_decide_eq_true_2. exact Hx.
    - exact Hc.
    - by rewrite Hty.
    - by rewrite N1.
    - rewrite Hty. cbn [buildable]. apply andb_true_iff.
      split; apply N.leb_le; lia. }
  split; [exact Hrun|]. rewrite Hrun. exact Hr.
Qed.

Lemma migration_on_existing_vector_column_witness :
  ("vector" ∈ extensions Cases.with_768 ∨ "vector" ∈ installable Cases.with_768) ∧
  relations Cases.with_768 !! "service_search_view"
    = Some (Relation Table [Column "id" (Tbuiltin "integer") true;
                            Cases.embedding_768]) ∧
  rel_kind (Relation Table [Column "id" (Tbuiltin "integer") true;
                            Cases.embedding_768]) = Table ∧
  find_column "embedding"
    (Relation Table [Column "id" (Tbuiltin "integer") true; Cases.embedding_768])
    = Some Cases.embedding_768 ∧
  col_type Cases.embedding_768 = Tvector (Some 768%N) ∧
  (1 ≤ 768 ≤ max_dimensions hnsw)%N ∧
  name_taken Cases.with_768 "idx_embedding_cosine" = false ∧
  (exec_script migration Cases.with_768
   = (with_index "idx_embedding_cosine"
        (Index "service_search_view" hnsw "embedding" vector_cosine_ops)
        (with_extension "vector" Cases.with_768),
      None) ∧
   relations (fst (exec_script migration Cases.with_768)) !! "service_search_view"
   = Some (Relation Table [Column "id" (Tbuiltin "integer") true;
                           Cases.embedding_768])).
Proof.
  assert (H1 : "vector" ∈ extensions Cases.with_768 ∨ "vector" ∈ installable Cases.with_768).
  { left. apply (bool_decide_eq_true_1 _). vm_compute. reflexivity. }
  assert (H2 : relations Cases.with_768 !! "service_search_view"
               = Some (Relation Table [Column "id" (Tbuiltin "integer") true;
                                       Cases.embedding_768]))
    by (vm_compute; reflexivity).
  assert (H3 : rel_kind (Relation Table [Column "id" (Tbuiltin "integer") true;
                                         Cases.embedding_768]) = Table)
    by reflexivity.
  assert (H4 : find_column "embedding"
                 (Relation Table [Column "id" (Tbuiltin "integer") true;
                                  Cases.embedding_768])
               = Some Cases.embedding_768)
    by (vm_compute; reflexivity).
  assert (H5 : col_type Cases.embedding_768 = Tvector (Some 768%N)) by reflexivity.
  assert (H6 : (1 ≤ 768 ≤ max_dimensions hnsw)%N) by (unfold max_dimensions; lia).
  assert (H7 : name_taken Cases.with_768 "idx_embedding_cosine" = false)
    by (vm_compute; reflexivity).
  split; [exact H1|]. split; [exact H2|]. split; [exact H3|]. split; [exact H4|].
  split; [exact H5|]. split; [exact H6|]. split; [exact H7|].
  exact (migration_on_existing_vector_column _ _ _ _ H1 H2 H3 H4 H5 H6 H7).
Defined.

(** X7. When the table already has an [embedding] column that is no
    vector, the guard skips the column and [CREATE INDEX] fails on its
    type: the run ends in a datatype mismatch, whichever way it is run; no
    relation and no index is changed, and run as one transaction it leaves
    the catalog as it was. *)
Theorem migration_on_foreign_column db r k (name : string) :
  "vector" ∈ extensions db ∨ "vector" ∈ installable db →
  relations db !! "service_search_view" = Some r →
  rel_kind r = Table →
  find_column "embedding" r = Some k →
  col_type k = Tbuiltin name →
  snd (exec_script migration db) = Some (datatype_mismatch "embedding") ∧
  relations (fst (exec_script migration db)) = relations db ∧
  indexes (fst (exec_script migration db)) = indexes db ∧
  exec_transaction migration db = (db, Some (datatype_mismatch "embedding")).
Proof.
  intros He Hr Hk Hc Hty.
  pose proof (create_extension_ensures _ _ He) as E1.
  assert (Hx : "vector" ∈ extensions (with_extension "vector" db)).
  { apply elem_of_union_l, elem_of_singleton. reflexivity. }
  pose proof (add_column_skipped "service_search_view" "embedding"
                (Tvector (Some 1536%N)) false (with_extension "vector" db) r k
                Hr Hk Hc) as E2.
  assert (exec_script migration db
          = (with_extension "vector" db, Some (datatype_mismatch "embedding")))
    as Hrun.
  { unfold migration.
    rewrite (exec_script_cons_ok _ _ _ _ E1), (exec_script_cons_ok _ _ _ _ E2).
    rewrite exec_script_cons. unfold create_embedding_index.
    rewrite (create_index_mismatch true "idx_embedding_cosine" "service_search_view"
               hnsw "embedding" vector_cosine_ops (with_extension "vector" db) r k);
      [reflexivity | exact Hr | exact Hk | | exact Hc | by rewrite Hty].
    apply bool_decide_eq_true_2. exact Hx. }
  rewrite (exec_transaction_failed _ _ _ _ Hrun), Hrun. done.
Qed.

Lemma migration_on_foreign_column_witness :
  ("vector" ∈ extensions Cases.with_text ∨ "vector" ∈ installable Cases.with_text) ∧
  relations Cases.with_text !! "service_search_view"
    = Some (Relation Table [Column "id" (Tbuiltin "integer") true;
                            Cases.embedding_text]) ∧
  rel_kind (Relation Table [Column "id" (Tbuiltin "integer") true;
                            Cases.embedding_text]) = Table ∧
  find_column "embedding"
    (Relation Table [Column "id" (Tbuiltin "integer") true; Cases.embedding_text])
    = Some Cases.embedding_text ∧
  col_type Cases.embedding_text = Tbuiltin "text" ∧
  snd (exec_script migration Cases.with_text) = Some (datatype_mismatch "embedding") ∧
  relations (fst (exec_script migration Cases.with_text)) = relations Cases.with_text ∧
  indexes (fst (exec_script migration Cases.with_text)) = indexes Cases.with_text ∧
  exec_transaction migration Cases.with_text
    = (Cases.with_text, Some (datatype_mismatch "embedding")).
Proof.
  assert (H1 : "vector" ∈ extensions Cases.with_text ∨ "vector" ∈ installable Cases.with_text).
  { right. apply (bool_decide_eq_true_1 _). vm_compute. reflexivity. }
  assert (H2 : relations Cases.with_text !! "service_search_view"
               = Some (Relation Table [Column "id" (Tbuiltin "integer") true;
                                       Cases.embedding_text]))
    by (vm_compute; reflexivity).
  assert (H3 : rel_kind (Relation Table [Column "id" (Tbuiltin "integer") true;
                                         Cases.embedding_text]) = Table)
    by reflexivity.
  assert (H4 : find_column "embedding"
                 (Relation Table [Column "id" (Tbuiltin "integer") true;
                                  Cases.embedding_text])
               = Some Cases.embedding_text)
    by (vm_compute; reflexivity).
  assert (H5 : col_type Cases.embedding_text = Tbuiltin "text") by reflexivity.
  split; [exact H1|]. split; [exact H2|]. split; [exact H3|]. split; [exact H4|].
  split; [exact H5|].
  exact (migration_on_foreign_column _ _ _ _ H1 H2 H3 H4 H5).
Defined.

(** X8. When the name [idx_embedding_cosine] is already in use, the
    indexes come out of the run as they went in: the guard keeps whatever
    holds the name, however it was made. *)
Theorem migration_keeps_existing_index db :
  name_taken db "idx_embedding_cosine" = true →
  indexes (fst (exec_script migration db)) = indexes db.
Proof.
  intros Hn.
  assert (indexes (fst (exec_script migration db)) = indexes db ∧
          name_taken (fst (exec_script migration db)) "idx_embedding_cosine" = true)
    as [Hi _]; [|exact Hi].
  apply (exec_script_invariant
           (λ d, indexes d = indexes db ∧ name_taken d "idx_embedding_cosine" = true));
    [done|].
  intros s d d' Hs [Hd Hnd] E.
  apply in_migration in Hs as [-> | [-> | ->]].
  - destruct (exec_stmt_keeps_names create_vector_extension _ _ ltac:(done) E)
      as [-> ->]. done.
  - destruct (exec_stmt_keeps_names add_embedding_column _ _ ltac:(done) E)
      as [-> ->]. done.
  - apply create_index_shape in E as [-> | [Hfree _]]; [done | congruence].
Qed.

Lemma migration_keeps_existing_index_witness :
  name_taken Cases.with_index_name "idx_embedding_cosine" = true ∧
  indexes (fst (exec_script migration Cases.with_index_name))
  = indexes Cases.with_index_name.
Proof.
  assert (H1 : name_taken Cases.with_index_name "idx_embedding_cosine" = true)
    by (vm_compute; reflexivity).
  split; [exact H1|]. exact (migration_keeps_existing_index _ H1).
Defined.

(** X9. Whatever the database and however the run ends, the migration
    only adds.  The one extension that can appear is [vector]; every
    relation other than [service_search_view] is as before, and that one
    keeps its kind and each of its columns; every index that was there is
    still there, unchanged, and [idx_embedding_cosine] is the only name
    under which one can appear. *)
Theorem migration_only_adds db :
  installable (fst (exec_script migration db)) = installable db ∧
  extensions db ⊆ extensions (fst (exec_script migration db)) ∧
  extensions (fst (exec_script migration db)) ⊆ {[ "vector" ]} ∪ extensions db ∧
  (∀ t, t ≠ "service_search_view" →
        relations (fst (exec_script migration db)) !! t = relations db !! t) ∧
  (∀ r c k, relations db !! "service_search_view" = Some r →
            find_column c r = Some k →
            ∃ r', relations (fst (exec_script migration db)) !! "service_search_view"
                    = Some r' ∧
                  rel_kind r' = rel_kind r ∧ find_column c r' = Some k) ∧
  (∀ i ix, indexes db !! i = Some ix →
           indexes (fst (exec_script migration db)) !! i = Some ix) ∧
  (∀ i, i ≠ "idx_embedding_cosine" →
        indexes (fst (exec_script migration db)) !! i = indexes db !! i).
Proof.
  pose proof (exec_script_extends migration db) as [_ _ Hcols _].
  assert (installable (fst (exec_script migration db)) = installable db ∧
          extensions db ⊆ extensions (fst (exec_script migration db)) ∧
          extensions (fst (exec_script migration db)) ⊆ {[ "vector" ]} ∪ extensions db ∧
          (∀ t, t ≠ "service_search_view" →
                relations (fst (exec_script migration db)) !! t = relations db !! t) ∧
          (∀ i ix, indexes db !! i = Some ix →
                   indexes (fst (exec_script migration db)) !! i = Some ix) ∧
          (∀ i, i ≠ "idx_embedding_cosine" →
                indexes (fst (exec_script migration db)) !! i = indexes db !! i))
    as (A & B & C & D & E & F).
  { apply (exec_script_invariant
             (λ d, installable d = installable db ∧
                   extensions db ⊆ extensions d ∧
                   extensions d ⊆ {[ "vector" ]} ∪ extensions db ∧
                   (∀ t, t ≠ "service_search_view" →
                         relations d !! t = relations db !! t) ∧
                   (∀ i ix, indexes db !! i = Some ix → indexes d !! i = Some ix) ∧
                   (∀ i, i ≠ "idx_embedding_cosine" →
                         indexes d !! i = indexes db !! i))).
    { repeat split; auto. apply union_subseteq_r. }
    intros s d d' Hs (A & B & C & D & E & F) Hx.
    apply in_migration in Hs as [-> | [-> | ->]].
    - apply create_extension_shape in Hx as [-> | ->]; [done|].
      cbn [with_extension installable extensions relations indexes].
      repeat split; auto.
      + etrans; [exact B | apply union_subseteq_r].
      + apply union_least; [apply union_subseteq_l | exact C].
    - apply add_column_shape in Hx as [-> | (r0 & _ & _ & ->)]; [done|].
      cbn [with_relation installable extensions relations indexes].
      repeat split; auto.
      intros t Ht. rewrite lookup_insert_ne by done. by apply D.
    - apply create_index_shape in Hx as [-> | [Hfree ->]]; [done|].
      cbn [with_index installable extensions relations indexes].
      repeat split; auto.
      + intros i ix Hi. apply E in Hi.
        destruct (decide ("idx_embedding_cosine" = i)) as [<-|Hne].
        * rewrite (name_free_index _ _ Hfree) in Hi. done.
        * by rewrite lookup_insert_ne.
      + intros i Hi. rewrite lookup_insert_ne by done. by apply F. }
  repeat split; auto.
  intros r c k Hr Hc. destruct (Hcols _ _ Hr) as (r' & Hr' & Hk' & Hc').
  exists r'. auto.
Qed.

End MigrationCases.

(* ===================================================================== *)
(** * Further properties of [App]                                         *)
(* ===================================================================== *)

Section PageRuns.
Import Jsx View Trace.
Context {signal : Type} `{IdentityProvider signal}.
Variable a : assets.
Implicit Types (s : signal) (p : @page signal) (es : list (@event signal)).
Local Open Scope Z_scope.

Lemma auth_run p es : auth (run a p es) = last_signal (auth p) es.
Proof.
  revert p. induction es as [|e es IH]; intros p; [done|].
  change (run a p (e :: es)) with (run a (step a p e) es).
  rewrite IH. by destruct e.
Qed.

Lemma count_in_range s es :
  0 ≤ count (run a (mounted s) es) ≤ Number.MAX_EXACT.
Proof.
  rewrite count_run_mounted.
  assert (0 ≤ Number.MAX_EXACT) by (unfold Number.MAX_EXACT; apply Z.pow_nonneg; lia).
  lia.
Qed.

(** X10. The page after any run of clicks and signal changes: the counter
    holds the number of clicks, capped at [2^53], and the signal is the
    last one the provider gave (the one at mount time when it gave none).
    Where in the run the signal changed makes no difference. *)
Theorem page_after_run s es :
  run a (mounted s) es
  = {| count := Z.min (Z.of_nat (activations es)) Number.MAX_EXACT;
       auth := last_signal s es |}.
Proof.
  pose proof (count_run_mounted a s es) as Hc.
  pose proof (auth_run (mounted s) es) as Ha.
  destruct (run a (mounted s) es) as [c au]. cbn [count auth] in Hc, Ha.
  by rewrite Hc, Ha.
Qed.

(** X11. Along any run the counter stays an integer between [0] and
    [2^53]; no event makes it go down, and none makes it go up by more
    than one. *)
Theorem counter_never_decreases s es (e : @event signal) :
  0 ≤ count (run a (mounted s) es) ≤ Number.MAX_EXACT ∧
  count (run a (mounted s) es) ≤ count (step a (run a (mounted s) es) e) ∧
  count (step a (run a (mounted s) es) e) ≤ count (run a (mounted s) es) + 1.
Proof.
  pose proof (count_in_range s es) as Hr. split; [exact Hr|].
  destruct e as [|s']; cbn [step count]; [|lia].
  rewrite click_eq, add_one_saturates by exact Hr. lia.
Qed.

End PageRuns.

Section HandlerQueue.
Import Jsx View.
Local Open Scope Z_scope.

Lemma run_handler_increment (calls : list set_state) (c : Z) :
  run_handler (increment ++ calls) c = run_handler calls (Number.add c 1).
Proof. reflexivity. Qed.

(** X12. The handler is written as an update of the previous state, so
    runs of it that queue up before the next render all count: [k] of
    them on a counter at [c] leave [c + k], capped at [2^53]. *)
Theorem queued_clicks_all_count (c : Z) (k : nat) :
  0 ≤ c ≤ Number.MAX_EXACT →
  run_handler (concat (repeat increment k)) c
  = Z.min (c + Z.of_nat k) Number.MAX_EXACT.
Proof.
  generalize Number.MAX_EXACT add_one_saturates. intros M Hadd.
  revert c. induction k as [|k IH]; intros c Hc.
  - cbn. lia.
  - change (concat (repeat increment (S k)))
      with (increment ++ concat (repeat increment k)).
    rewrite run_handler_increment, IH.
    + rewrite Hadd by done. lia.
    + rewrite Hadd by done. lia.
Qed.

Lemma queued_clicks_all_count_witness :
  0 ≤ 3 ≤ Number.MAX_EXACT ∧
  run_handler (concat (repeat increment 4)) 3
  = Z.min (3 + Z.of_nat 4) Number.MAX_EXACT.
Proof.
  assert (H1 : 0 ≤ 3 ≤ Number.MAX_EXACT) by (vm_compute; split; discriminate).
  split; [exact H1|]. exact (queued_clicks_all_count 3 4 H1).
Defined.

End HandlerQueue.

Section BooleanProviderRuns.
Import Jsx View Trace.
Local Open Scope Z_scope.

(** X13. What is on the page after any run, under the provider's boolean
    signal: the signed-in view exactly when the last signal was on, the
    signed-out view exactly when it was off, and a button reading the
    number of clicks capped at [2^53]. *)
Theorem page_shown_after_run (a : assets) (s : bool) (es : list (@event bool)) :
  shows_signed_in a (auth (run a (mounted s) es)) (count (run a (mounted s) es))
    = last_signal s es ∧
  shows_signed_out a (auth (run a (mounted s) es)) (count (run a (mounted s) es))
    = negb (last_signal s es) ∧
  label a (run a (mounted s) es)
    = Some ("count is " +:+
            Number.toString (Z.min (Z.of_nat (activations es)) Number.MAX_EXACT)).
Proof.
  rewrite label_eq, count_run_mounted, auth_run. cbn [mounted auth].
  destruct (last_signal s es); repeat split.
Qed.

End BooleanProviderRuns.
